(** * Filtro de carpetas por fecha: a shallow embedding of [filtro.py]

    The program is an interactive console session (class [FiltrarCarpetas])
    that lists the directories under a root path, filters them by
    modification date and optionally writes a report.  The embedding keeps
    the method names of the class.  Console, clock and filesystem are
    explicit: the console is a state threaded through a small error monad,
    the clock and the filesystem are arguments. *)

From Stdlib Require Import ZArith List Bool Lia String Ascii.
From Stdlib Require Import Permutation Sorted.
Import ListNotations.

Local Open Scope Z_scope.

(* ================================================================== *)
(** * Python strings *)

(** A Python [str] is a sequence of Unicode code points. *)
Definition str := list Z.

Module Str.

(** Literals are written as UTF-8 text and decoded to code points; the
    decoder keeps the number of continuation bytes still expected and the
    bits read so far. *)
Fixpoint utf8_go (pend : nat) (acc : Z) (bs : list Z) : str :=
  match bs with
  | [] => []
  | b :: r =>
      match pend with
      | O =>
          if b <? 128 then b :: utf8_go 0 0 r
          else if b <? 224 then utf8_go 1 (b - 192) r
          else if b <? 240 then utf8_go 2 (b - 224) r
          else utf8_go 3 (b - 240) r
      | S O => (acc * 64 + (b - 128)) :: utf8_go 0 0 r
      | S p => utf8_go p (acc * 64 + (b - 128)) r
      end
  end.

Definition bytes (s : string) : list Z :=
  map (fun a => Z.of_nat (nat_of_ascii a)) (list_ascii_of_string s).

Definition eqb (a b : str) : bool :=
  if list_eq_dec Z.eq_dec a b then true else false.

(** [x in [...]] on a list of strings. *)
Definition mem (x : str) (l : list str) : bool := existsb (eqb x) l.

(** ["c" * n] *)
Definition rep (c : Z) (n : nat) : str := repeat c n.

(** [str.isspace] for one code point: the white-space code points of the
    Unicode database as CPython tabulates them. *)
Definition isspace (c : Z) : bool :=
  ((9 <=? c) && (c <=? 13)) || ((28 <=? c) && (c <=? 32))
  || (c =? 133) || (c =? 160) || (c =? 5760)
  || ((8192 <=? c) && (c <=? 8202))
  || (c =? 8232) || (c =? 8233) || (c =? 8239) || (c =? 8287)
  || (c =? 12288).

Fixpoint lstrip (s : str) : str :=
  match s with
  | [] => []
  | c :: r => if isspace c then lstrip r else s
  end.

Definition rstrip (s : str) : str := rev (lstrip (rev s)).

(** [str.strip()] *)
Definition strip (s : str) : str := rstrip (lstrip s).

(** [str.lower()] on the Basic Latin and Latin-1 blocks, which hold every
    letter the program compares against; code points of other blocks are
    left as they are. *)
Definition lower_cp (c : Z) : Z :=
  if (65 <=? c) && (c <=? 90) then c + 32
  else if (192 <=? c) && (c <=? 222) && negb (c =? 215) then c + 32
  else c.

Definition lower (s : str) : str := map lower_cp s.

(** Decimal rendering of a non-negative integer, most significant digit
    first.  The fuel bounds the number of digits. *)
Fixpoint decimal_aux (fuel : nat) (n : Z) (acc : str) : str :=
  match fuel with
  | O => acc
  | S f =>
      let acc' := (48 + n mod 10) :: acc in
      if n <? 10 then acc' else decimal_aux f (n / 10) acc'
  end.

Definition decimal (n : Z) : str :=
  decimal_aux (S (Z.to_nat (Z.log2 n))) n [].

(** [str(n)] / [{n}] in an f-string. *)
Definition of_int (n : Z) : str :=
  if n <? 0 then 45 :: decimal (- n) else decimal n.

(** [{n:3d}]: right-aligned in a field of width 3, padded with spaces. *)
Definition fmt_3d (n : Z) : str :=
  let s := of_int n in rep 32 (3 - List.length s)%nat ++ s.

(** [%d] and [%m] of [strftime]: two digits, zero padded. *)
Definition dos_digitos (n : Z) : str := [48 + n / 10; 48 + n mod 10].

End Str.

(** A literal of the source. *)
Definition py (s : string) : str := Str.utf8_go 0 0 (Str.bytes s).
Arguments py s%_string.

(* ================================================================== *)
(** * Exceptions and results *)

(** The exception classes the program meets.  [PermissionError] is a
    subclass of [OSError]; [KeyboardInterrupt] is not an [Exception]. *)
Inductive exn : Type :=
| ValueError
| OverflowError
| EOFError
| PermissionError
| OSError
| KeyboardInterrupt
| RuntimeError.

Definition is_OSError (e : exn) : bool :=
  match e with PermissionError | OSError => true | _ => false end.

Definition is_Exception (e : exn) : bool :=
  match e with KeyboardInterrupt => false | _ => true end.

Inductive result (A : Type) : Type :=
| Ok (a : A)
| Raise (e : exn).
Arguments Ok {A} a.
Arguments Raise {A} e.

(* ================================================================== *)
(** * Calendar dates ([datetime.date]) *)

Record date : Type := mkdate { year : Z; month : Z; day : Z }.

Module Date.

Definition MINYEAR : Z := 1.
Definition MAXYEAR : Z := 9999.

Definition is_leap (y : Z) : bool :=
  (y mod 4 =? 0) && (negb (y mod 100 =? 0) || (y mod 400 =? 0)).

Definition days_in_month (y m : Z) : Z :=
  if m =? 2 then (if is_leap y then 29 else 28)
  else if (m =? 4) || (m =? 6) || (m =? 9) || (m =? 11) then 30
  else 31.

(** The checks of the constructor [date(year, month, day)]. *)
Definition check (y m d : Z) : bool :=
  (MINYEAR <=? y) && (y <=? MAXYEAR)
  && (1 <=? m) && (m <=? 12)
  && (1 <=? d) && (d <=? days_in_month y m).

(** [date(year, month, day)]: raises [ValueError] out of range. *)
Definition new (y m d : Z) : result date :=
  if check y m d then Ok (mkdate y m d) else Raise ValueError.

Definition valid (f : date) : Prop :=
  check (year f) (month f) (day f) = true.

Definition eqb (a b : date) : bool :=
  (year a =? year b) && (month a =? month b) && (day a =? day b).

(** Dates compare as the triples (year, month, day). *)
Definition ltb (a b : date) : bool :=
  (year a <? year b)
  || ((year a =? year b)
      && ((month a <? month b)
          || ((month a =? month b) && (day a <? day b)))).

Definition leb (a b : date) : bool := ltb a b || eqb a b.
Definition gtb (a b : date) : bool := ltb b a.
Definition geb (a b : date) : bool := leb b a.

Definition lt (a b : date) : Prop := ltb a b = true.
Definition le (a b : date) : Prop := leb a b = true.

(** ** Proleptic Gregorian ordinals, as [datetime] computes them *)

Definition days_before_year (y : Z) : Z :=
  let y' := y - 1 in y' * 365 + y' / 4 - y' / 100 + y' / 400.

(** The table [_DAYS_BEFORE_MONTH] of a common year. *)
Definition DAYS_BEFORE_MONTH (m : Z) : Z :=
  match m with
  | 1 => 0 | 2 => 31 | 3 => 59 | 4 => 90 | 5 => 120 | 6 => 151
  | 7 => 181 | 8 => 212 | 9 => 243 | 10 => 273 | 11 => 304 | 12 => 334
  | _ => 0
  end.

(** The table [_DAYS_IN_MONTH] of a common year. *)
Definition DAYS_IN_MONTH (m : Z) : Z :=
  match m with
  | 2 => 28
  | 4 | 6 | 9 | 11 => 30
  | _ => 31
  end.

Definition days_before_month (y m : Z) : Z :=
  DAYS_BEFORE_MONTH m + (if (m >? 2) && is_leap y then 1 else 0).

(** [date.toordinal()]: 1 for 01/01/0001. *)
Definition toordinal (f : date) : Z :=
  days_before_year (year f) + days_before_month (year f) (month f) + day f.

Definition DI400Y : Z := 146097.
Definition DI100Y : Z := 36524.
Definition DI4Y : Z := 1461.
Definition MAXORDINAL : Z := 3652059.

(** The tail of [_ord2ymd]: month and day of the day number [n] (from 0)
    of a year, by an estimate of the month that is corrected when it is
    too high. *)
Definition month_day (leapyear : bool) (n : Z) : Z * Z :=
  let m := Z.shiftr (n + 50) 5 in
  let preceding :=
    DAYS_BEFORE_MONTH m + (if (m >? 2) && leapyear then 1 else 0) in
  if preceding >? n then
    let m' := m - 1 in
    let preceding' :=
      preceding
      - (DAYS_IN_MONTH m' + (if (m' =? 2) && leapyear then 1 else 0)) in
    (m', n - preceding' + 1)
  else (m, n - preceding + 1).

(** [date.fromordinal(n)] ([_ord2ymd]), by the cycles of 400, 100, 4 and
    1 years. *)
Definition fromordinal (n0 : Z) : date :=
  let n := n0 - 1 in
  let n400 := n / DI400Y in
  let n := n mod DI400Y in
  let n100 := n / DI100Y in
  let n := n mod DI100Y in
  let n4 := n / DI4Y in
  let n := n mod DI4Y in
  let n1 := n / 365 in
  let n := n mod 365 in
  let y := n400 * 400 + 1 + n100 * 100 + n4 * 4 + n1 in
  if (n1 =? 4) || (n100 =? 4) then mkdate (y - 1) 12 31
  else
    let leapyear := (n1 =? 3) && (negb (n4 =? 24) || (n100 =? 3)) in
    let '(m, d) := month_day leapyear n in
    mkdate y m d.

(** [self - timedelta(days=k)]: [timedelta] refuses more than 999999999
    days, and the difference must be an ordinal of a date. *)
Definition sub_days (f : date) (k : Z) : result date :=
  if Z.abs k >? 999999999 then Raise OverflowError
  else
    let o := toordinal f - k in
    if (0 <? o) && (o <=? MAXORDINAL) then Ok (fromordinal o)
    else Raise OverflowError.

(** [strftime("%d/%m/%Y")].  [%Y] is the year in decimal; C libraries
    differ on padding years below 1000, and nothing below relies on it. *)
Definition strftime_dmY (f : date) : str :=
  Str.dos_digitos (day f) ++ [47] ++ Str.dos_digitos (month f)
  ++ [47] ++ Str.decimal (year f).

End Date.

(* ================================================================== *)
(** * The console *)

(** What the session does to the outside, in order. *)
Inductive evento : Type :=
| Imprime (s : str)
| Pregunta (s : str)
| Limpia
| Escribe (archivo : str) (escrituras : list str).

(** The lines still to be typed and the events so far. *)
Record consola : Type := mkconsola { entrada : list str; salida : list evento }.

Definition M (A : Type) : Type := consola -> result A * consola.

Definition ret {A : Type} (a : A) : M A := fun c => (Ok a, c).

Definition raise {A : Type} (e : exn) : M A := fun c => (Raise e, c).

Definition bind {A B : Type} (m : M A) (k : A -> M B) : M B :=
  fun c =>
    match m c with
    | (Ok a, c') => k a c'
    | (Raise e, c') => (Raise e, c')
    end.

Notation "x <- m ;; k" := (bind m (fun x => k))
  (at level 61, m at next level, right associativity).
Notation "m ;; k" := (bind m (fun _ => k))
  (at level 61, right associativity).

Definition emit (e : evento) : M unit :=
  fun c => (Ok tt, mkconsola (entrada c) (salida c ++ [e])).

(** [print(s)] *)
Definition print (s : str) : M unit := emit (Imprime s).

(** [input(prompt)]: the prompt is shown, then a line is read; at the end
    of the input it raises [EOFError]. *)
Definition input (prompt : str) : M str :=
  fun c =>
    match entrada c with
    | [] => (Raise EOFError, mkconsola [] (salida c ++ [Pregunta prompt]))
    | l :: resto => (Ok l, mkconsola resto (salida c ++ [Pregunta prompt]))
    end.

(** The shape of every prompt loop of the program:
    [while True: x = input(prompt)], then either return a value made from
    [x] or print messages and go round again.  Each round reads one line,
    so the loop is recursive on the lines left. *)
Fixpoint reintentar_desde {A : Type} (prompt : str)
    (probar : str -> A + list evento)
    (lineas : list str) (sal : list evento) : result A * consola :=
  match lineas with
  | [] => (Raise EOFError, mkconsola [] (sal ++ [Pregunta prompt]))
  | l :: resto =>
      match probar l with
      | inl a => (Ok a, mkconsola resto (sal ++ [Pregunta prompt]))
      | inr mensajes =>
          reintentar_desde prompt probar resto
            ((sal ++ [Pregunta prompt]) ++ mensajes)
      end
  end.

Definition reintentar {A : Type} (prompt : str)
    (probar : str -> A + list evento) : M A :=
  fun c => reintentar_desde prompt probar (entrada c) (salida c).

(** A line that the loop does not accept, and what it leaves on the
    screen: the prompt and the messages. *)
Definition rechazada {A : Type} (probar : str -> A + list evento)
    (l : str) : Prop :=
  exists m, probar l = inr m.

Definition rechazo {A : Type} (prompt : str)
    (probar : str -> A + list evento) (l : str) : list evento :=
  Pregunta prompt :: match probar l with inr m => m | inl _ => [] end.

(* ================================================================== *)
(** * The filesystem as the program sees it *)

(** A Python iteration: it ends, raises, or gives a value and goes on. *)
Inductive iter (A : Type) : Type :=
| Fin
| Falla (e : exn)
| Da (a : A) (resto : iter A).
Arguments Fin {A}.
Arguments Falla {A} e.
Arguments Da {A} a resto.

(** [os.DirEntry]: [is_dir()] may need a system call and raise. *)
Record DirEntry : Type := mkDirEntry {
  entry_path : str;
  entry_name : str;
  entry_is_dir : result bool
}.

Record sistema : Type := mksistema {
  (** [os.walk(top)]: triples (root, dirs, files) *)
  os_walk : str -> iter (str * list str * list str);
  (** [os.scandir(path)] *)
  os_scandir : str -> result (iter DirEntry);
  (** [date.fromtimestamp(os.path.getmtime(path))] *)
  fecha_mtime : str -> result date
}.

(** [not l] *)
Definition es_vacia {A : Type} (l : list A) : bool :=
  match l with [] => true | _ => false end.

Definition empieza_con_barra (s : str) : bool :=
  match s with
  | c :: _ => c =? 47
  | [] => false
  end.

(** [os.path.join(a, b)], POSIX flavour. *)
Definition os_path_join (a b : str) : str :=
  if empieza_con_barra b then b
  else if es_vacia a || empieza_con_barra (rev a) then a ++ b
  else a ++ [47] ++ b.

(* ================================================================== *)
(** * The program *)

(** One element of the lists of the program: the dictionary with the keys
    ['ruta'], ['nombre'] and ['fecha_modificacion']. *)
Record carpeta : Type := mkcarpeta {
  ruta : str;
  nombre : str;
  fecha_modificacion : date
}.

(** The attributes of a [FiltrarCarpetas] object. *)
Record FiltrarCarpetas : Type := mkFiltrarCarpetas {
  ruta_busqueda : str;
  carpetas_encontradas : list carpeta
}.

(** [FiltrarCarpetas.__init__] *)
Definition init : FiltrarCarpetas := mkFiltrarCarpetas [] [].

(** What a run takes from the Python runtime and from the machine. *)
Record entorno : Type := mkentorno {
  (** the decimal value of the non-ASCII code points of category Nd *)
  nd_extra : Z -> option Z;
  (** [int(s)] on a line of input; [None] stands for [ValueError] *)
  py_int : str -> option Z;
  (** [str(e)] of a caught exception *)
  texto_exn : exn -> str;
  (** [date.today()] *)
  hoy : date;
  (** [datetime.now().strftime("%Y%m%d_%H%M%S")] *)
  marca_archivo : str;
  (** [datetime.now().strftime('%d/%m/%Y %H:%M:%S')] *)
  marca_informe : str;
  (** [open(nombre, 'w', encoding='utf-8')]: the exception it raises *)
  open_falla : str -> option exn;
  (** [os.getcwd()] *)
  getcwd : str;
  (** [os.path.expanduser(os.path.expandvars(ruta))] *)
  expandir : str -> str;
  (** [os.path.exists(ruta) and os.path.isdir(ruta)] *)
  es_directorio : str -> bool;
  fs : sistema
}.

Section Programa.

Variable E : entorno.

(** ** [validar_fecha] *)

(** The decimal value of a code point that [\d] matches and [int] reads. *)
Definition valor_decimal (c : Z) : option Z :=
  if (48 <=? c) && (c <=? 57) then Some (c - 48) else nd_extra E c.

Definition es_digito (c : Z) : bool :=
  match valor_decimal c with Some _ => true | None => false end.

(** [\d{n}]: exactly [n] digits; gives the group and the rest. *)
Fixpoint digitos (n : nat) (s : str) : option (str * str) :=
  match n with
  | O => Some ([], s)
  | S k =>
      match s with
      | c :: r =>
          if es_digito c then
            match digitos k r with
            | Some (g, r') => Some (c :: g, r')
            | None => None
            end
          else None
      | [] => None
      end
  end.

(** [/] *)
Definition barra (s : str) : option str :=
  match s with
  | c :: r => if c =? 47 then Some r else None
  | [] => None
  end.

(** [$]: the end of the string, or just before a line feed that ends it. *)
Definition fin_de_patron (s : str) : bool :=
  match s with
  | [] => true
  | [c] => c =? 10
  | _ => false
  end.

(** [re.match(r'^(\d{2})/(\d{2})/(\d{4})$', s)]: the three groups. *)
Definition re_match_patron (s : str) : option (str * str * str) :=
  match digitos 2 s with
  | Some (g1, s1) =>
    match barra s1 with
    | Some s2 =>
      match digitos 2 s2 with
      | Some (g2, s3) =>
        match barra s3 with
        | Some s4 =>
          match digitos 4 s4 with
          | Some (g3, s5) => if fin_de_patron s5 then Some (g1, g2, g3) else None
          | None => None
          end
        | None => None
        end
      | None => None
      end
    | None => None
    end
  | None => None
  end.

(** [int(g)] on a group of the match, which holds decimal digits only. *)
Fixpoint int_desde (acc : Z) (g : str) : option Z :=
  match g with
  | [] => Some acc
  | c :: r =>
      match valor_decimal c with
      | Some v => int_desde (acc * 10 + v) r
      | None => None
      end
  end.

Definition int_grupo (g : str) : option Z := int_desde 0 g.

Definition validar_fecha (fecha_str : str) : option date :=
  match re_match_patron fecha_str with
  | None => None
  | Some (g1, g2, g3) =>
      match int_grupo g1, int_grupo g2, int_grupo g3 with
      | Some dia, Some mes, Some año =>
          match Date.new año mes dia with
          | Ok fecha => Some fecha
          | Raise _ => None
          end
      | _, _, _ => None
      end
  end.

(** ** Prompts *)

(** One round of [solicitar_fecha] on the line read. *)
Definition probar_fecha (linea : str) : date + list evento :=
  match validar_fecha (Str.strip linea) with
  | Some fecha => inl fecha
  | None =>
      inr [Imprime (py "❌ Formato de fecha inválido. Use dd/mm/aaaa (ej: 15/03/2024)");
           Imprime []]
  end.

Definition solicitar_fecha (mensaje : str) : M date :=
  reintentar (mensaje ++ py " [dd/mm/aaaa]: ") probar_fecha.

(** One round of the loop of [mostrar_menu_opciones]. *)
Definition probar_opcion (linea : str) : Z + list evento :=
  match py_int E linea with
  | Some opcion =>
      if (1 <=? opcion) && (opcion <=? 5) then inl opcion
      else inr [Imprime (py "❌ Opción inválida. Seleccione un número del 1 al 5.")]
  | None => inr [Imprime (py "❌ Por favor ingrese un número válido.")]
  end.

Definition mostrar_menu_opciones : M Z :=
  print (10 :: py "Opciones de filtro:") ;;
  print (py "1. Carpetas modificadas DESPUÉS de una fecha específica") ;;
  print (py "2. Carpetas modificadas ANTES de una fecha específica") ;;
  print (py "3. Carpetas modificadas EN una fecha específica") ;;
  print (py "4. Carpetas modificadas en un RANGO de fechas") ;;
  print (py "5. Carpetas modificadas en los ÚLTIMOS N días") ;;
  print [] ;;
  reintentar (py "Seleccione una opción (1-5): ") probar_opcion.

(** One round of the loop of option 5 that reads the number of days. *)
Definition probar_dias (linea : str) : Z + list evento :=
  match py_int E linea with
  | Some dias =>
      if dias >? 0 then inl dias
      else inr [Imprime (py "❌ El número de días debe ser positivo.")]
  | None => inr [Imprime (py "❌ Por favor ingrese un número válido.")]
  end.

(** The loop of option 5 that reads the number of days. *)
Definition solicitar_dias : M Z :=
  reintentar (py "Ingrese el número de días: ") probar_dias.

Definition preguntar_incluir_subcarpetas : M bool :=
  print [] ;;
  linea <- input (py "¿Incluir subcarpetas en la búsqueda? (s/n) [s]: ") ;;
  let incluir := Str.strip (Str.lower linea) in
  ret (negb (Str.eqb incluir (py "n")) && negb (Str.eqb incluir (py "no"))).

(** ** Traversal *)

(** [try: date.fromtimestamp(getmtime(ruta)) except (OSError, ValueError):
    None]; any other exception goes on to the caller. *)
Definition obtener_fecha_modificacion (ruta_carpeta : str)
    : result (option date) :=
  match fecha_mtime (fs E) ruta_carpeta with
  | Ok fecha => Ok (Some fecha)
  | Raise e =>
      if is_OSError e then Ok None
      else match e with ValueError => Ok None | _ => Raise e end
  end.

(** The inner loop of the recursive search, [for dir_name in dirs]: the
    list so far grows, and an exception stops the loop. *)
Fixpoint agregar_dirs (root : str) (dirs : list str)
    (carpetas : list carpeta) : list carpeta * option exn :=
  match dirs with
  | [] => (carpetas, None)
  | dir_name :: resto =>
      let ruta_completa := os_path_join root dir_name in
      match obtener_fecha_modificacion ruta_completa with
      | Raise e => (carpetas, Some e)
      | Ok None => agregar_dirs root resto carpetas
      | Ok (Some fecha_mod) =>
          agregar_dirs root resto
            (carpetas ++ [mkcarpeta ruta_completa dir_name fecha_mod])
      end
  end.

(** [for root, dirs, files in os.walk(...)] *)
Fixpoint recorrer_walk (it : iter (str * list str * list str))
    (carpetas : list carpeta) : list carpeta * option exn :=
  match it with
  | Fin => (carpetas, None)
  | Falla e => (carpetas, Some e)
  | Da (root, dirs, _) resto =>
      match agregar_dirs root dirs carpetas with
      | (carpetas', None) => recorrer_walk resto carpetas'
      | (carpetas', Some e) => (carpetas', Some e)
      end
  end.

(** [for entry in entries] of the search in the directory alone. *)
Fixpoint recorrer_scandir (it : iter DirEntry) (carpetas : list carpeta)
    : list carpeta * option exn :=
  match it with
  | Fin => (carpetas, None)
  | Falla e => (carpetas, Some e)
  | Da entry resto =>
      match entry_is_dir entry with
      | Raise e => (carpetas, Some e)
      | Ok false => recorrer_scandir resto carpetas
      | Ok true =>
          match obtener_fecha_modificacion (entry_path entry) with
          | Raise e => (carpetas, Some e)
          | Ok None => recorrer_scandir resto carpetas
          | Ok (Some fecha_mod) =>
              recorrer_scandir resto
                (carpetas
                 ++ [mkcarpeta (entry_path entry) (entry_name entry) fecha_mod])
          end
      end
  end.

(** The body of the [try] of [buscar_carpetas]: the list at the moment the
    body ends or raises. *)
Definition buscar_intento (ruta_busqueda : str) (incluir_subcarpetas : bool)
    : list carpeta * option exn :=
  if incluir_subcarpetas then recorrer_walk (os_walk (fs E) ruta_busqueda) []
  else
    match os_scandir (fs E) ruta_busqueda with
    | Raise e => ([], Some e)
    | Ok entries => recorrer_scandir entries []
    end.

(** [carpetas] is bound before the [try] and returned after it, whichever
    way the [try] ends; what is not an [Exception] is not caught. *)
Definition buscar_carpetas (self : FiltrarCarpetas)
    (incluir_subcarpetas : bool) : M (list carpeta) :=
  match buscar_intento (ruta_busqueda self) incluir_subcarpetas with
  | (carpetas, None) => ret carpetas
  | (carpetas, Some PermissionError) =>
      print (py "❌ Sin permisos para acceder a: " ++ ruta_busqueda self) ;;
      ret carpetas
  | (carpetas, Some e) =>
      if is_Exception e then
        print (py "❌ Error al buscar carpetas: " ++ texto_exn E e) ;;
        ret carpetas
      else raise e
  end.

(** ** Filtering *)

Definition filtrar_por_opcion (carpetas : list carpeta) (opcion : Z)
    : M (list carpeta) :=
  if opcion =? 1 then
    fecha_ref <- solicitar_fecha (py "Ingrese la fecha de referencia") ;;
    ret (filter (fun c => Date.gtb (fecha_modificacion c) fecha_ref) carpetas)
  else if opcion =? 2 then
    fecha_ref <- solicitar_fecha (py "Ingrese la fecha de referencia") ;;
    ret (filter (fun c => Date.ltb (fecha_modificacion c) fecha_ref) carpetas)
  else if opcion =? 3 then
    fecha_ref <- solicitar_fecha (py "Ingrese la fecha específica") ;;
    ret (filter (fun c => Date.eqb (fecha_modificacion c) fecha_ref) carpetas)
  else if opcion =? 4 then
    fecha_inicio <- solicitar_fecha (py "Ingrese la fecha de inicio") ;;
    fecha_fin <- solicitar_fecha (py "Ingrese la fecha de fin") ;;
    if Date.gtb fecha_inicio fecha_fin then
      print (py "❌ La fecha de inicio debe ser anterior a la fecha de fin.") ;;
      ret []
    else
      ret (filter
             (fun c => Date.leb fecha_inicio (fecha_modificacion c)
                       && Date.leb (fecha_modificacion c) fecha_fin)
             carpetas)
  else if opcion =? 5 then
    dias <- solicitar_dias ;;
    let fecha_limite := hoy E in
    match Date.sub_days fecha_limite dias with
    | Raise e => raise e
    | Ok fecha_inicio =>
        ret (filter (fun c => Date.geb (fecha_modificacion c) fecha_inicio)
               carpetas)
    end
  else ret [].

(** ** Results *)

(** [sorted(carpetas, key=lambda x: x['fecha_modificacion'])].  Python's
    sort is stable and compares keys with [<]; so is this insertion of
    each element before the sorted rest. *)
Fixpoint insertar (c : carpeta) (l : list carpeta) : list carpeta :=
  match l with
  | [] => [c]
  | x :: r =>
      if Date.ltb (fecha_modificacion x) (fecha_modificacion c)
      then x :: insertar c r
      else c :: x :: r
  end.

Definition sorted (l : list carpeta) : list carpeta :=
  fold_right insertar [] l.

(** [enumerate(l, i)] *)
Fixpoint enumerate (l : list carpeta) (i : Z) : list (Z * carpeta) :=
  match l with
  | [] => []
  | c :: r => (i, c) :: enumerate r (i + 1)
  end.

(** [f"{i:3d}. [{fecha_str}] {carpeta['ruta']}"] *)
Definition linea_resultado (i : Z) (c : carpeta) : str :=
  Str.fmt_3d i ++ py ". [" ++ Date.strftime_dmY (fecha_modificacion c)
  ++ py "] " ++ ruta c.

(** The numbered lines of the sorted list, on the screen and in the
    report. *)
Definition listado (carpetas : list carpeta) : list str :=
  map (fun ic => linea_resultado (fst ic) (snd ic))
    (enumerate (sorted carpetas) 1).

(** [for x in l: print(x)] *)
Fixpoint print_todas (l : list str) : M unit :=
  match l with
  | [] => ret tt
  | x :: r => print x ;; print_todas r
  end.

(** Returns the object as the method leaves it. *)
Definition mostrar_resultados (self : FiltrarCarpetas)
    (carpetas_filtradas : list carpeta) : M FiltrarCarpetas :=
  print (10 :: Str.rep 61 50) ;;
  print (py "           RESULTADOS DEL FILTRO") ;;
  print (Str.rep 61 50) ;;
  print (py "Total de carpetas encontradas: "
         ++ Str.of_int (Z.of_nat (List.length carpetas_filtradas))) ;;
  print [] ;;
  if es_vacia carpetas_filtradas then
    print (py "❌ No se encontraron carpetas que cumplan el criterio especificado.") ;;
    ret self
  else
    print (py "Carpetas que cumplen el criterio:") ;;
    print (Str.rep 45 50) ;;
    print_todas (listado carpetas_filtradas) ;;
    ret (mkFiltrarCarpetas (ruta_busqueda self) carpetas_filtradas).

(** The answers taken as a yes. *)
Definition afirmativas : list str :=
  [py "s"; py "sí"; py "si"; py "y"; py "yes"].

(** What the report holds, one element for each [f.write]. *)
Definition informe (self : FiltrarCarpetas) : list str :=
  [py "RESULTADOS DEL FILTRO DE CARPETAS POR FECHA" ++ [10];
   Str.rep 61 50 ++ [10];
   py "Fecha de generación: " ++ marca_informe E ++ [10];
   py "Ruta de búsqueda: " ++ ruta_busqueda self ++ [10];
   py "Total de carpetas: "
   ++ Str.of_int (Z.of_nat (List.length (carpetas_encontradas self)))
   ++ [10; 10]]
  ++ map (fun l => l ++ [10]) (listado (carpetas_encontradas self)).

(** [f"carpetas_filtradas_{timestamp}.txt"] *)
Definition nombre_informe : str :=
  py "carpetas_filtradas_" ++ marca_archivo E ++ py ".txt".

Definition guardar_resultados (self : FiltrarCarpetas) : M unit :=
  if es_vacia (carpetas_encontradas self) then ret tt
  else
    print (10 :: Str.rep 45 50) ;;
    linea <- input (py "¿Desea guardar estos resultados en un archivo? (s/n): ") ;;
    let guardar := Str.strip (Str.lower linea) in
    if Str.mem guardar afirmativas then
      let nombre_archivo := nombre_informe in
      match open_falla E nombre_archivo with
      | None =>
          emit (Escribe nombre_archivo (informe self)) ;;
          print (py "✓ Resultados guardados en: " ++ nombre_archivo)
      | Some e =>
          if is_Exception e then
            print (py "❌ Error al guardar el archivo: " ++ texto_exn E e)
          else raise e
      end
    else ret tt.

(** ** The session *)

Definition limpiar_pantalla : M unit := emit Limpia.

Definition mostrar_titulo : M unit :=
  print (Str.rep 61 50) ;;
  print (py "    FILTRO DE CARPETAS POR FECHA - PYTHON") ;;
  print (Str.rep 61 50) ;;
  print [].

(** One round of [solicitar_ruta] on the line read. *)
Definition probar_ruta (linea : str) : str + list evento :=
  let ruta := Str.strip linea in
  let ruta := if es_vacia ruta then getcwd E else ruta in
  let ruta := expandir E ruta in
  if es_directorio E ruta then inl ruta
  else inr [Imprime (py "❌ Error: La ruta especificada no existe o no es un directorio.");
            Imprime []].

(** Returns the object with [ruta_busqueda] set; the method itself always
    returns [True]. *)
Definition solicitar_ruta (self : FiltrarCarpetas) : M FiltrarCarpetas :=
  r <- reintentar
         (py "Ingrese la ruta donde buscar (Enter para directorio actual): ")
         probar_ruta ;;
  print (py "✓ Ruta válida: " ++ r) ;;
  ret (mkFiltrarCarpetas r (carpetas_encontradas self)).

(** One round of the [while True] of [ejecutar]: the object after it and
    whether the loop goes on. *)
Definition vuelta (self : FiltrarCarpetas) : M (FiltrarCarpetas * bool) :=
  limpiar_pantalla ;;
  mostrar_titulo ;;
  self <- solicitar_ruta self ;;
  incluir_subcarpetas <- preguntar_incluir_subcarpetas ;;
  print (10 :: py "🔍 Buscando carpetas en: " ++ ruta_busqueda self) ;;
  print (if incluir_subcarpetas : bool then py "   (incluyendo subcarpetas)"
         else py "   (solo en directorio actual)") ;;
  carpetas <- buscar_carpetas self incluir_subcarpetas ;;
  if es_vacia carpetas then
    print (py "❌ No se encontraron carpetas en la ruta especificada.") ;;
    _ <- input (10 :: py "Presione Enter para continuar...") ;;
    ret (self, true)
  else
    print (py "✓ Se encontraron "
           ++ Str.of_int (Z.of_nat (List.length carpetas)) ++ py " carpetas") ;;
    opcion <- mostrar_menu_opciones ;;
    carpetas_filtradas <- filtrar_por_opcion carpetas opcion ;;
    self <- mostrar_resultados self carpetas_filtradas ;;
    guardar_resultados self ;;
    print (10 :: Str.rep 45 50) ;;
    linea <- input (py "¿Desea realizar otra búsqueda? (s/n): ") ;;
    let continuar := Str.strip (Str.lower linea) in
    ret (self, Str.mem continuar afirmativas).

(** The loop of [ejecutar].  Every round reads at least one line, so the
    rounds are bounded by the lines left; [vueltas] is that bound. *)
Fixpoint ejecutar_bucle (vueltas : nat) (self : FiltrarCarpetas)
    : M FiltrarCarpetas :=
  match vueltas with
  | O => raise EOFError
  | S n =>
      r <- vuelta self ;;
      if snd r then ejecutar_bucle n (fst r) else ret (fst r)
  end.

Definition ejecutar (self : FiltrarCarpetas) : M FiltrarCarpetas :=
  fun c =>
    (self <- ejecutar_bucle (S (List.length (entrada c))) self ;;
     print (10 :: py "¡Gracias por usar el filtro de carpetas!") ;;
     ret self) c.

End Programa.

(** How the process ends: [main] returns, calls [sys.exit], or lets an
    exception through. *)
Inductive final : Type :=
| Retorna
| Exit (estado : Z)
| Propaga (e : exn).

(** [main]: a [KeyboardInterrupt] and any other [Exception] of the session
    end the process with status 1, each after its message. *)
Definition main (E : entorno) : consola -> final * consola :=
  fun c =>
    match ejecutar E init c with
    | (Ok _, c') => (Retorna, c')
    | (Raise KeyboardInterrupt, c') =>
        (Exit 1,
         mkconsola (entrada c')
           (salida c'
            ++ [Imprime (10 :: 10 :: py "❌ Programa interrumpido por el usuario.")]))
    | (Raise e, c') =>
        if is_Exception e then
          (Exit 1,
           mkconsola (entrada c')
             (salida c'
              ++ [Imprime (10 :: py "❌ Error inesperado: " ++ texto_exn E e)]))
        else (Propaga e, c')
    end.

(* ================================================================== *)
(** * A filesystem tree *)

(** A file or a directory; [None] is a modification time that cannot be
    read.  A directory holds its entries by name, in the order in which
    the system lists them. *)
#[local] Unset Elimination Schemes.
Inductive nodo : Type :=
| Archivo (mtime : option date)
| Directorio (mtime : option date) (hijos : list (str * nodo)).
#[local] Set Elimination Schemes.

Module Arbol.

Definition es_dir (t : nodo) : bool :=
  match t with Directorio _ _ => true | Archivo _ => false end.

Definition mtime_de (t : nodo) : option date :=
  match t with Directorio m _ => m | Archivo m => m end.

(** A name of an entry: not empty and without [/]. *)
Definition nombre_valido (n : str) : bool :=
  negb (es_vacia n) && forallb (fun c => negb (c =? 47)) n.

Fixpoint sin_repetidos (l : list str) : bool :=
  match l with
  | [] => true
  | x :: r => negb (Str.mem x r) && sin_repetidos r
  end.

(** Valid names, different within a directory, at every level. *)
Fixpoint bien_formado (t : nodo) : bool :=
  match t with
  | Archivo _ => true
  | Directorio _ hijos =>
      forallb (fun nh => nombre_valido (fst nh)) hijos
      && sin_repetidos (map fst hijos)
      && forallb (fun nh => bien_formado (snd nh)) hijos
  end.

Fixpoint buscar_hijo (n : str) (hijos : list (str * nodo)) : option nodo :=
  match hijos with
  | [] => None
  | (m, h) :: r => if Str.eqb n m then Some h else buscar_hijo n r
  end.

(** The node reached from [t] by the names [comps]. *)
Fixpoint resolver (t : nodo) (comps : list str) : option nodo :=
  match comps with
  | [] => Some t
  | n :: r =>
      match t with
      | Directorio _ hijos =>
          match buscar_hijo n hijos with
          | Some h => resolver h r
          | None => None
          end
      | Archivo _ => None
      end
  end.

(** A path with the separator that a name is appended to. *)
Definition con_barra (a : str) : str :=
  if es_vacia a || empieza_con_barra (rev a) then a else a ++ [47].

Fixpoint quitar_prefijo (pre s : str) : option str :=
  match pre with
  | [] => Some s
  | c :: pre' =>
      match s with
      | d :: s' => if c =? d then quitar_prefijo pre' s' else None
      | [] => None
      end
  end.

Fixpoint partir_desde (actual : str) (s : str) : list str :=
  match s with
  | [] => [actual]
  | c :: r =>
      if c =? 47 then actual :: partir_desde [] r
      else partir_desde (actual ++ [c]) r
  end.

(** The names of a relative path. *)
Definition partir (s : str) : list str :=
  match s with
  | [] => []
  | _ => partir_desde [] s
  end.

(** The names that lead from the root path [raiz] to the path [p]. *)
Definition relativa (raiz p : str) : option (list str) :=
  if Str.eqb p raiz then Some []
  else option_map partir (quitar_prefijo (con_barra raiz) p).

Definition nodo_en (raiz : str) (t : nodo) (p : str) : option nodo :=
  match relativa raiz p with
  | Some comps => resolver t comps
  | None => None
  end.

(** The iteration of [os.scandir(p)] over the entries [hijos]. *)
Fixpoint entradas (p : str) (hijos : list (str * nodo)) : iter DirEntry :=
  match hijos with
  | [] => Fin
  | (n, h) :: r =>
      Da (mkDirEntry (os_path_join p n) n (Ok (es_dir h))) (entradas p r)
  end.

Definition nombres_si (f : nodo -> bool) (hijos : list (str * nodo))
    : list str :=
  map fst (filter (fun nh => f (snd nh)) hijos).

(** The triples of [os.walk], top down. *)
Fixpoint walk (p : str) (t : nodo) : list (str * list str * list str) :=
  match t with
  | Archivo _ => []
  | Directorio _ hijos =>
      (p, nombres_si es_dir hijos, nombres_si (fun h => negb (es_dir h)) hijos)
      :: flat_map (fun nh => walk (os_path_join p (fst nh)) (snd nh)) hijos
  end.

Fixpoint iter_de {A : Type} (l : list A) : iter A :=
  match l with
  | [] => Fin
  | x :: r => Da x (iter_de r)
  end.

(** The filesystem whose root path [raiz] is the tree [t]. *)
Definition sistema_de (raiz : str) (t : nodo) : sistema :=
  mksistema
    (fun p =>
       match nodo_en raiz t p with
       | Some h => iter_de (walk p h)
       | None => Fin
       end)
    (fun p =>
       match nodo_en raiz t p with
       | Some (Directorio _ hijos) => Ok (entradas p hijos)
       | _ => Raise OSError
       end)
    (fun p =>
       match nodo_en raiz t p with
       | Some h =>
           match mtime_de h with
           | Some d => Ok d
           | None => Raise PermissionError
           end
       | None => Raise OSError
       end).

End Arbol.

(* ================================================================== *)
(** * The statements of the specification *)

Section Enunciados.

Variable E : entorno.

(** The code point [c] is a decimal digit of value [v]. *)
Definition digito (c v : Z) : Prop := valor_decimal E c = Some v.

(** The string is two digits, [/], two digits, [/], four digits, and the
    day, month and year it spells are those of the real calendar date
    [f]. *)
Definition denota (s : str) (f : date) : Prop :=
  exists c1 c2 c3 c4 c5 c6 c7 c8 d1 d2 m1 m2 y1 y2 y3 y4,
    s = [c1; c2; 47; c3; c4; 47; c5; c6; c7; c8]
    /\ digito c1 d1 /\ digito c2 d2 /\ digito c3 m1 /\ digito c4 m2
    /\ digito c5 y1 /\ digito c6 y2 /\ digito c7 y3 /\ digito c8 y4
    /\ f = mkdate (1000 * y1 + 100 * y2 + 10 * y3 + y4) (10 * m1 + m2)
             (10 * d1 + d2)
    /\ Date.valid f.

End Enunciados.

(** The answer to the question about subdirectories that the
    specification takes as a yes: nothing, or one of the affirmative
    answers. *)
Definition respuesta_afirmativa (s : str) : bool :=
  es_vacia s || Str.mem s afirmativas.

(** The directories directly under the root whose modification time can
    be read, as entries of the program. *)
Definition hijos_directos (raiz : str) (hijos : list (str * nodo))
    : list carpeta :=
  flat_map
    (fun nh =>
       match snd nh with
       | Directorio (Some d) _ => [mkcarpeta (os_path_join raiz (fst nh)) (fst nh) d]
       | _ => []
       end)
    hijos.

(** The order of the listing: the date of [x] is not after that of [y]. *)
Definition antes (x y : carpeta) : Prop :=
  Date.le (fecha_modificacion x) (fecha_modificacion y).

(** The events in which the session asks for a line or writes a file. *)
Definition es_dialogo (e : evento) : bool :=
  match e with
  | Pregunta _ | Escribe _ _ => true
  | _ => false
  end.

(** [bajo p t q]: [q] is the path of a node below the node [t], whose own
    path is [p]: of one of its entries, or of a node below one of them. *)
Inductive bajo : str -> nodo -> str -> Prop :=
| bajo_hijo (p : str) (m : option date) (hijos : list (str * nodo))
    (n : str) (h : nodo) :
    In (n, h) hijos -> bajo p (Directorio m hijos) (os_path_join p n)
| bajo_nieto (p : str) (m : option date) (hijos : list (str * nodo))
    (n : str) (h : nodo) (q : str) :
    In (n, h) hijos -> bajo (os_path_join p n) h q ->
    bajo p (Directorio m hijos) q.

(** A step of the session that gives no line back to the input, and one
    that moreover reads a line whenever it returns. *)
Definition no_devuelve {A : Type} (m : M A) : Prop :=
  forall c r c', m c = (r, c') ->
    (List.length (entrada c') <= List.length (entrada c))%nat.

Definition lee {A : Type} (m : M A) : Prop :=
  no_devuelve m
  /\ forall c a c', m c = (Ok a, c') ->
       (List.length (entrada c') < List.length (entrada c))%nat.

(** The values that an iteration gives before it ends or raises. *)
Fixpoint elementos {A : Type} (it : iter A) : list A :=
  match it with
  | Fin => []
  | Falla _ => []
  | Da a resto => a :: elementos resto
  end.

(** An entry of the result made from an entry [entry] of the listing of
    [os.scandir]: [is_dir()] gave true, the modification date could be
    read, and path, name and date are those of [entry]. *)
Definition de_entrada (E : entorno) (it : iter DirEntry) (x : carpeta)
    : Prop :=
  exists entry,
    In entry (elementos it) /\ entry_is_dir entry = Ok true
    /\ fecha_mtime (fs E) (entry_path entry) = Ok (fecha_modificacion x)
    /\ ruta x = entry_path entry /\ nombre x = entry_name entry.

(** An entry of the result made from a name that [os.walk] gave among the
    directories of some root: its path is [os.path.join] of the root and
    the name, its date the one read at that path. *)
Definition de_walk (E : entorno) (it : iter (str * list str * list str))
    (x : carpeta) : Prop :=
  exists root dirs files,
    In (root, dirs, files) (elementos it) /\ In (nombre x) dirs
    /\ ruta x = os_path_join root (nombre x)
    /\ fecha_mtime (fs E) (ruta x) = Ok (fecha_modificacion x).

(** What one name [dir_name] of the directories of [root] adds to the list
    of the recursive search when nothing is raised. *)
Definition aporta (E : entorno) (root dir_name : str) : list carpeta :=
  match obtener_fecha_modificacion E (os_path_join root dir_name) with
  | Ok (Some f) => [mkcarpeta (os_path_join root dir_name) dir_name f]
  | _ => []
  end.

(** [nodo_bajo p t q n h]: the node [h], of name [n] and path [q], lies
    below the node [t], whose own path is [p]. *)
Inductive nodo_bajo : str -> nodo -> str -> str -> nodo -> Prop :=
| nodo_bajo_hijo (p : str) (m : option date) (hijos : list (str * nodo))
    (n : str) (h : nodo) :
    In (n, h) hijos ->
    nodo_bajo p (Directorio m hijos) (os_path_join p n) n h
| nodo_bajo_nieto (p : str) (m : option date) (hijos : list (str * nodo))
    (n : str) (h : nodo) (q n' : str) (h' : nodo) :
    In (n, h) hijos -> nodo_bajo (os_path_join p n) h q n' h' ->
    nodo_bajo p (Directorio m hijos) q n' h'.

(** The names of a relative path, joined by the separator. *)
Fixpoint unir (comps : list str) : str :=
  match comps with
  | [] => []
  | [n] => n
  | n :: resto => n ++ [47] ++ unir resto
  end.

(** A step of the session that raises only exceptions of [P]. *)
Definition solo_lanza {A : Type} (P : exn -> Prop) (m : M A) : Prop :=
  forall c e c', m c = (Raise e, c') -> P e.

(** What can end a session: the end of the input, the overflow of a date,
    or an exception that is not an [Exception]. *)
Definition fin_de_sesion (e : exn) : Prop :=
  e = EOFError \/ e = OverflowError \/ is_Exception e = false.

(** [r] is [l] with some elements left out. *)
Inductive sublista {A : Type} : list A -> list A -> Prop :=
| sublista_nil : sublista [] []
| sublista_toma (x : A) (r l : list A) :
    sublista r l -> sublista (x :: r) (x :: l)
| sublista_salta (x : A) (r l : list A) :
    sublista r l -> sublista r (x :: l).

(* ================================================================== *)
(** * Environments for the examples *)

Module Ejemplo.

Fixpoint numeral (acc : Z) (s : str) : option Z :=
  match s with
  | [] => Some acc
  | c :: r =>
      if (48 <=? c) && (c <=? 57) then numeral (acc * 10 + (c - 48)) r
      else None
  end.

(** An [int] for plain numerals: white space around, a sign, ASCII
    digits. *)
Definition int (s : str) : option Z :=
  match Str.strip s with
  | [] => None
  | c :: r =>
      if c =? 45 then
        (if es_vacia r then None else option_map Z.opp (numeral 0 r))
      else numeral 0 (c :: r)
  end.

Definition arbol : nodo :=
  Directorio (Some (mkdate 2020 1 1))
    [(py "a", Directorio (Some (mkdate 2024 1 1))
                [(py "x", Directorio (Some (mkdate 2024 5 5)) [])]);
     (py "notas.txt", Archivo (Some (mkdate 2024 1 2)));
     (py "b", Directorio (Some (mkdate 2024 6 15)) []);
     (py "c", Directorio (Some (mkdate 2025 1 1)) []);
     (py "z", Directorio None [])].

(** A machine whose only directory is [/datos], on 06/11/2026. *)
Definition con_sistema (s : sistema) : entorno :=
  mkentorno (fun _ => None) int (fun _ => py "error") (mkdate 2026 11 6)
    (py "20261106_120000") (py "06/11/2026 12:00:00") (fun _ => None)
    (py "/datos") (fun x => x) (fun p => Str.eqb p (py "/datos")) s.

Definition E : entorno := con_sistema (Arbol.sistema_de (py "/datos") arbol).

Definition a : carpeta := mkcarpeta (py "/datos/a") (py "a") (mkdate 2024 1 1).
Definition b : carpeta := mkcarpeta (py "/datos/b") (py "b") (mkdate 2024 6 15).
Definition c : carpeta := mkcarpeta (py "/datos/c") (py "c") (mkdate 2025 1 1).

(** A listing of [/datos] that gives [a] and then fails for lack of
    permission. *)
Definition sistema_cortado : sistema :=
  mksistema (fun _ => Fin)
    (fun _ => Ok (Da (mkDirEntry (py "/datos/a") (py "a") (Ok true))
                    (Falla PermissionError)))
    (fun _ => Ok (mkdate 2024 1 1)).

(** A root that cannot be opened. *)
Definition sistema_cerrado : sistema :=
  mksistema (fun _ => Fin) (fun _ => Raise PermissionError)
    (fun _ => Raise PermissionError).

End Ejemplo.

(* ================================================================== *)
(** * Facts about dates *)

Module DateFacts.

Import Date.

Ltac boolz :=
  repeat match goal with
  | |- context [?a =? ?b] => destruct (Z.eqb_spec a b)
  | |- context [?a <? ?b] => destruct (Z.ltb_spec a b)
  | |- context [?a <=? ?b] => destruct (Z.leb_spec a b)
  | |- context [?a >? ?b] => rewrite (Z.gtb_ltb a b)
  | H : context [?a =? ?b] |- _ => destruct (Z.eqb_spec a b)
  | H : context [?a <? ?b] |- _ => destruct (Z.ltb_spec a b)
  | H : context [?a <=? ?b] |- _ => destruct (Z.leb_spec a b)
  | H : context [?a >? ?b] |- _ => rewrite (Z.gtb_ltb a b) in H
  end.

Lemma is_leap_cases y :
  (is_leap y = true /\ y mod 4 = 0 /\ (y mod 100 <> 0 \/ y mod 400 = 0))
  \/ (is_leap y = false /\ (y mod 4 <> 0 \/ (y mod 100 = 0 /\ y mod 400 <> 0))).
Proof.
  unfold is_leap. boolz; simpl; lia.
Qed.

Lemma days_before_year_succ y :
  days_before_year (y + 1)
  = days_before_year y + 365 + (if is_leap y then 1 else 0).
Proof.
  unfold days_before_year. cbv zeta.
  replace (y + 1 - 1) with y by lia.
  destruct (is_leap_cases y) as [(-> & H)|(-> & H)];
    Z.div_mod_to_equations; lia.
Qed.

Ltac month_cases m :=
  let H := fresh in
  assert (H : m = 1 \/ m = 2 \/ m = 3 \/ m = 4 \/ m = 5 \/ m = 6 \/ m = 7
           \/ m = 8 \/ m = 9 \/ m = 10 \/ m = 11 \/ m = 12) by lia;
  repeat destruct H as [H | H]; subst m.

Lemma check_inv y m d :
  check y m d = true ->
  1 <= y <= 9999 /\ 1 <= m <= 12 /\ 1 <= d <= days_in_month y m.
Proof.
  unfold check, MINYEAR, MAXYEAR. intros H.
  repeat (apply andb_prop in H; destruct H as [H ?]). lia.
Qed.

Lemma check_intro y m d :
  1 <= y <= 9999 -> 1 <= m <= 12 -> 1 <= d <= days_in_month y m ->
  check y m d = true.
Proof.
  unfold check, MINYEAR, MAXYEAR. intros.
  repeat (apply andb_true_intro; split); lia.
Qed.

Lemma days_before_month_succ y m :
  1 <= m <= 11 ->
  days_before_month y (m + 1) = days_before_month y m + days_in_month y m.
Proof.
  intros Hm. unfold days_before_month, days_in_month.
  month_cases m; try lia; simpl; destruct (is_leap y); reflexivity.
Qed.

Lemma days_before_month_mono y m1 m2 :
  1 <= m1 -> m1 <= m2 -> m2 <= 12 ->
  days_before_month y m1 <= days_before_month y m2.
Proof.
  intros H1 H12 H2. unfold days_before_month.
  month_cases m1; month_cases m2; try lia; simpl; destruct (is_leap y); lia.
Qed.

Lemma days_in_month_pos y m : 28 <= days_in_month y m <= 31.
Proof.
  unfold days_in_month.
  destruct (m =? 2); [destruct (is_leap y); lia|].
  destruct ((m =? 4) || (m =? 6) || (m =? 9) || (m =? 11)); lia.
Qed.

Lemma days_before_month_end y :
  days_before_month y 12 + days_in_month y 12
  = 365 + (if is_leap y then 1 else 0).
Proof. unfold days_before_month, days_in_month; simpl. destruct (is_leap y); lia. Qed.

Lemma days_before_year_mono y1 y2 :
  y1 <= y2 -> days_before_year y1 <= days_before_year y2.
Proof.
  unfold days_before_year. cbv zeta. intros. Z.div_mod_to_equations. lia.
Qed.

Lemma day_of_year_bounds y m d :
  1 <= m <= 12 -> 1 <= d <= days_in_month y m ->
  1 <= days_before_month y m + d <= 365 + (if is_leap y then 1 else 0).
Proof.
  intros Hm Hd. rewrite <- days_before_month_end.
  pose proof (days_before_month_mono y 1 m ltac:(lia) ltac:(lia) ltac:(lia)) as H1.
  assert (H0 : days_before_month y 1 = 0) by reflexivity.
  split; [lia|].
  destruct (Z.eq_dec m 12) as [->|Hne]; [lia|].
  pose proof (days_before_month_succ y m ltac:(lia)) as Hs.
  pose proof (days_before_month_mono y (m + 1) 12 ltac:(lia) ltac:(lia) ltac:(lia)).
  pose proof (days_in_month_pos y 12). lia.
Qed.

Lemma toordinal_lt a b :
  valid a -> valid b -> ltb a b = true -> toordinal a < toordinal b.
Proof.
  destruct a as [ya ma da], b as [yb mb db]. unfold valid, ltb, toordinal; simpl.
  intros Ha Hb. apply check_inv in Ha, Hb.
  destruct Ha as (Hya & Hma & Hda), Hb as (Hyb & Hmb & Hdb).
  pose proof (day_of_year_bounds ya ma da Hma Hda) as Ba.
  pose proof (day_of_year_bounds yb mb db Hmb Hdb) as Bb.
  intros H. apply orb_prop in H. destruct H as [H|H].
  - apply Z.ltb_lt in H.
    pose proof (days_before_year_succ ya).
    pose proof (days_before_year_mono (ya + 1) yb ltac:(lia)). lia.
  - apply andb_prop in H. destruct H as [Hy H]. apply Z.eqb_eq in Hy. subst yb.
    apply orb_prop in H. destruct H as [H|H].
    + apply Z.ltb_lt in H.
      pose proof (days_before_month_succ ya ma ltac:(lia)).
      pose proof (days_before_month_mono ya (ma + 1) mb ltac:(lia) ltac:(lia) ltac:(lia)).
      lia.
    + apply andb_prop in H. destruct H as [Hm H]. apply Z.eqb_eq in Hm.
      apply Z.ltb_lt in H. subst. lia.
Qed.

Ltac eval_closed :=
  repeat match goal with
  | |- context [Z.pos ?a - 1] =>
      let v := eval cbv in (Z.pos a - 1) in change (Z.pos a - 1) with v
  | |- context [Z.pos ?a =? Z.pos ?b] =>
      let v := eval cbv in (Z.pos a =? Z.pos b) in
      change (Z.pos a =? Z.pos b) with v
  | |- context [Z.pos ?a >? Z.pos ?b] =>
      let v := eval cbv in (Z.pos a >? Z.pos b) in
      change (Z.pos a >? Z.pos b) with v
  end;
  cbv beta iota delta [DAYS_BEFORE_MONTH DAYS_IN_MONTH andb orb negb].

Lemma month_day_spec y n :
  0 <= n < 365 ->
  let '(m, d) := month_day (is_leap y) n in
  1 <= m <= 12 /\ 1 <= d <= days_in_month y m
  /\ days_before_month y m + d = n + 1.
Proof.
  intros Hn. unfold month_day, days_before_month, days_in_month.
  rewrite Z.shiftr_div_pow2 by lia.
  change (2 ^ 5) with 32.
  assert (Hm : 1 <= (n + 50) / 32 <= 12) by (Z.div_mod_to_equations; lia).
  assert (Hr : 32 * ((n + 50) / 32) <= n + 50 < 32 * ((n + 50) / 32) + 32)
    by (Z.div_mod_to_equations; lia).
  set (m := (n + 50) / 32) in *. clearbody m.
  month_cases m; destruct (is_leap y); eval_closed;
    match goal with
    | |- context [?a >? n] => rewrite (Z.gtb_ltb a n); destruct (Z.ltb_spec n a)
    end; eval_closed; lia.
Qed.

Lemma days_before_year_cycles a b c d :
  0 <= b <= 3 -> 0 <= c <= 24 -> 0 <= d <= 3 ->
  days_before_year (a * 400 + 1 + b * 100 + c * 4 + d)
  = a * 146097 + b * 36524 + c * 1461 + d * 365.
Proof.
  intros. unfold days_before_year. cbv zeta.
  Z.div_mod_to_equations. lia.
Qed.

Lemma is_leap_cycles a b c d :
  0 <= b <= 3 -> 0 <= c <= 24 -> 0 <= d <= 3 ->
  is_leap (a * 400 + 1 + b * 100 + c * 4 + d)
  = (d =? 3) && (negb (c =? 24) || (b =? 3)).
Proof.
  intros. unfold is_leap. boolz; cbv [andb orb negb]; try reflexivity;
    exfalso; Z.div_mod_to_equations; lia.
Qed.

Lemma fromordinal_spec n :
  1 <= n ->
  let f := fromordinal n in
  toordinal f = n /\ 1 <= year f /\ 1 <= month f <= 12
  /\ 1 <= day f <= days_in_month (year f) (month f).
Proof.
  intros Hn. unfold fromordinal, DI400Y, DI100Y, DI4Y. cbv zeta.
  set (N := n - 1).
  set (n400 := N / 146097). set (r400 := N mod 146097).
  set (n100 := r400 / 36524). set (r100 := r400 mod 36524).
  set (n4 := r100 / 1461). set (r4 := r100 mod 1461).
  set (n1 := r4 / 365). set (r1 := r4 mod 365).
  assert (E400 : N = 146097 * n400 + r400 /\ 0 <= r400 < 146097 /\ 0 <= n400)
    by (subst n400 r400; Z.div_mod_to_equations; lia).
  assert (E100 : r400 = 36524 * n100 + r100 /\ 0 <= r100 < 36524 /\ 0 <= n100 <= 4)
    by (subst n100 r100; Z.div_mod_to_equations; lia).
  assert (E4 : r100 = 1461 * n4 + r4 /\ 0 <= r4 < 1461 /\ 0 <= n4 <= 24)
    by (subst n4 r4; Z.div_mod_to_equations; lia).
  assert (E1 : r4 = 365 * n1 + r1 /\ 0 <= r1 < 365 /\ 0 <= n1 <= 4)
    by (subst n1 r1; Z.div_mod_to_equations; lia).
  clearbody n400 r400 n100 r100 n4 r4 n1 r1.
  destruct ((n1 =? 4) || (n100 =? 4)) eqn:Esp.
  - (* the last day of a leap year *)
    assert (Hy : exists a b c, 0 <= b <= 3 /\ 0 <= c <= 24
               /\ n400 * 400 + 1 + n100 * 100 + n4 * 4 + n1 - 1
                  = a * 400 + 1 + b * 100 + c * 4 + 3
               /\ N = a * 146097 + b * 36524 + c * 1461 + 3 * 365 + 365
               /\ (c <> 24 \/ b = 3)).
    { apply orb_prop in Esp. destruct Esp as [E|E]; apply Z.eqb_eq in E.
      - exists n400, n100, n4. lia.
      - exists n400, 3, 24. lia. }
    destruct Hy as (a & b & c & Hb & Hc & -> & HN & Hl).
    unfold toordinal; simpl year; simpl month; simpl day.
    pose proof (is_leap_cycles a b c 3 Hb Hc ltac:(lia)) as L.
    assert (L' : is_leap (a * 400 + 1 + b * 100 + c * 4 + 3) = true).
    { rewrite L. boolz; cbv [andb orb negb]; try reflexivity; lia. }
    unfold days_before_month, days_in_month. rewrite L'.
    rewrite days_before_year_cycles by lia.
    eval_closed. lia.
  - apply orb_false_elim in Esp. destruct Esp as [En1 En100].
    apply Z.eqb_neq in En1, En100.
    pose proof (is_leap_cycles n400 n100 n4 n1 ltac:(lia) ltac:(lia) ltac:(lia)) as L.
    rewrite <- L.
    set (y := n400 * 400 + 1 + n100 * 100 + n4 * 4 + n1) in *.
    pose proof (month_day_spec y r1 ltac:(lia)) as Hmd.
    assert (Hdy : days_before_year y = N - r1).
    { subst y. rewrite days_before_year_cycles by lia. lia. }
    destruct (month_day (is_leap y) r1) as [m d].
    destruct Hmd as (Hm & Hd & Hsum).
    unfold toordinal; cbn [year month day].
    split; [lia|]. split; [subst y; lia|]. tauto.
Qed.

Lemma valid_inv (f : date) :
  valid f ->
  1 <= year f <= 9999 /\ 1 <= month f <= 12
  /\ 1 <= day f <= days_in_month (year f) (month f).
Proof. apply check_inv. Qed.

Lemma toordinal_pos (f : date) : valid f -> 1 <= toordinal f.
Proof.
  intros V. apply valid_inv in V. destruct V as (Hy & Hm & Hd).
  pose proof (day_of_year_bounds _ _ _ Hm Hd).
  pose proof (days_before_year_mono 1 (year f) ltac:(lia)) as H1.
  change (days_before_year 1) with 0 in H1. unfold toordinal. lia.
Qed.

Lemma days_before_year_10000 : days_before_year 10000 = MAXORDINAL.
Proof. reflexivity. Qed.

Lemma toordinal_max (f : date) : valid f -> toordinal f <= MAXORDINAL.
Proof.
  intros V. apply valid_inv in V. destruct V as (Hy & Hm & Hd).
  pose proof (day_of_year_bounds _ _ _ Hm Hd).
  pose proof (days_before_year_succ (year f)).
  pose proof (days_before_year_mono (year f + 1) 10000 ltac:(lia)) as H1.
  rewrite days_before_year_10000 in H1. unfold toordinal. lia.
Qed.

(** The date of an ordinal within range is a date of the calendar. *)
Lemma fromordinal_valid (n : Z) :
  1 <= n <= MAXORDINAL -> valid (fromordinal n).
Proof.
  intros Hn. pose proof (fromordinal_spec n ltac:(lia)) as H. cbv zeta in H.
  generalize dependent (fromordinal n). intros f (Ho & Hy & Hm & Hd).
  unfold valid. apply check_intro; try assumption. split; [assumption|].
  destruct (Z.le_gt_cases (year f) 9999) as [|Hgt]; [assumption|].
  exfalso.
  pose proof (day_of_year_bounds _ _ _ Hm Hd).
  pose proof (days_before_year_mono 10000 (year f) ltac:(lia)) as H1.
  rewrite days_before_year_10000 in H1. unfold toordinal in Ho.
  unfold MAXORDINAL in *. lia.
Qed.

Lemma toordinal_fromordinal (n : Z) : 1 <= n -> toordinal (fromordinal n) = n.
Proof. intros Hn. now destruct (fromordinal_spec n Hn). Qed.

Lemma eqb_eq (a b : date) : eqb a b = true <-> a = b.
Proof.
  destruct a, b. unfold eqb; cbn [year month day]. split.
  - intros H. apply andb_prop in H. destruct H as [H H3].
    apply andb_prop in H. destruct H as [H1 H2].
    apply Z.eqb_eq in H1, H2, H3. congruence.
  - intros [= -> -> ->]. now rewrite !Z.eqb_refl.
Qed.

(** The order of the dates as a comparison of triples. *)
Lemma ltb_lt (a b : date) :
  ltb a b = true
  <-> year a < year b
      \/ (year a = year b
          /\ (month a < month b \/ (month a = month b /\ day a < day b))).
Proof.
  unfold ltb.
  rewrite orb_true_iff, andb_true_iff, orb_true_iff, andb_true_iff.
  rewrite !Z.ltb_lt, !Z.eqb_eq. tauto.
Qed.

Lemma ltb_irrefl (a : date) : ltb a a = false.
Proof.
  destruct (ltb a a) eqn:H; [|reflexivity]. apply ltb_lt in H. lia.
Qed.

Lemma ltb_trans (a b c : date) :
  ltb a b = true -> ltb b c = true -> ltb a c = true.
Proof. rewrite !ltb_lt. lia. Qed.

Lemma ltb_total (a b : date) : ltb a b = true \/ a = b \/ ltb b a = true.
Proof.
  rewrite !ltb_lt. destruct a as [ya ma da], b as [yb mb db]; cbn [year month day].
  destruct (Z.lt_trichotomy ya yb) as [|[->|]]; [lia| |lia].
  destruct (Z.lt_trichotomy ma mb) as [|[->|]]; [lia| |lia].
  destruct (Z.lt_trichotomy da db) as [|[->|]]; [lia| |lia].
  right; left; reflexivity.
Qed.

Lemma leb_le (a b : date) : leb a b = true <-> ltb a b = true \/ a = b.
Proof. unfold leb. now rewrite orb_true_iff, eqb_eq. Qed.

Lemma leb_refl (a : date) : leb a a = true.
Proof. apply leb_le. now right. Qed.

Lemma leb_trans (a b c : date) :
  leb a b = true -> leb b c = true -> leb a c = true.
Proof.
  rewrite !leb_le. intros [H1| ->] [H2| ->]; auto.
  left. eapply ltb_trans; eassumption.
Qed.

Lemma ltb_false_leb (a b : date) : ltb a b = false -> leb b a = true.
Proof.
  intros H. apply leb_le.
  destruct (ltb_total a b) as [H'|[->|H']]; [congruence|now right|now left].
Qed.

Lemma leb_false_ltb (a b : date) : leb a b = false -> ltb b a = true.
Proof.
  intros H. destruct (ltb_total a b) as [H'|[->|H']]; [| |assumption].
  - assert (leb a b = true) by (apply leb_le; now left). congruence.
  - rewrite leb_refl in H. discriminate.
Qed.

(** On dates of the calendar the ordinal is strictly increasing, so the
    order of the dates is the order of their ordinals. *)
Lemma toordinal_inj (a b : date) :
  valid a -> valid b -> toordinal a = toordinal b -> a = b.
Proof.
  intros Va Vb H. destruct (ltb_total a b) as [L|[->|L]]; [|reflexivity|].
  - pose proof (toordinal_lt a b Va Vb L). lia.
  - pose proof (toordinal_lt b a Vb Va L). lia.
Qed.

Lemma leb_toordinal (a b : date) :
  valid a -> valid b -> (leb a b = true <-> toordinal a <= toordinal b).
Proof.
  intros Va Vb. rewrite leb_le. split.
  - intros [L| ->]; [apply toordinal_lt in L; trivial; lia|lia].
  - intros H. destruct (ltb_total a b) as [L|[->|L]]; auto.
    apply toordinal_lt in L; trivial. lia.
Qed.

Lemma fromordinal_toordinal (f : date) :
  valid f -> fromordinal (toordinal f) = f.
Proof.
  intros V. pose proof (toordinal_pos f V). pose proof (toordinal_max f V).
  apply toordinal_inj; [apply fromordinal_valid; lia|assumption|].
  apply toordinal_fromordinal. lia.
Qed.

End DateFacts.

(* ================================================================== *)
(** * Facts about the rendering of numbers *)

Lemma decimal_aux_4 (k : nat) (y : Z) :
  1000 <= y <= 9999 ->
  Str.decimal_aux (4 + k) y []
  = [48 + y / 1000; 48 + (y / 100) mod 10; 48 + (y / 10) mod 10; 48 + y mod 10].
Proof.
  intros Hy. cbn [Nat.add Str.decimal_aux].
  replace (y / 10 / 10) with (y / 100)
    by (rewrite Z.div_div by lia; reflexivity).
  replace (y / 100 / 10) with (y / 1000)
    by (rewrite Z.div_div by lia; reflexivity).
  assert (H1 : (y <? 10) = false) by (apply Z.ltb_ge; lia).
  assert (H2 : (y / 10 <? 10) = false)
    by (apply Z.ltb_ge; Z.div_mod_to_equations; lia).
  assert (H3 : (y / 100 <? 10) = false)
    by (apply Z.ltb_ge; Z.div_mod_to_equations; lia).
  assert (H4 : (y / 1000 <? 10) = true)
    by (apply Z.ltb_lt; Z.div_mod_to_equations; lia).
  rewrite H1, H2, H3, H4.
  rewrite (Z.mod_small (y / 1000) 10) by (Z.div_mod_to_equations; lia).
  reflexivity.
Qed.

Lemma decimal_year (y : Z) :
  1000 <= y <= 9999 ->
  Str.decimal y
  = [48 + y / 1000; 48 + (y / 100) mod 10; 48 + (y / 10) mod 10; 48 + y mod 10].
Proof.
  intros Hy. unfold Str.decimal.
  assert (Hl : 9 <= Z.log2 y) by (apply Z.log2_le_pow2; simpl; lia).
  replace (S (Z.to_nat (Z.log2 y))) with (4 + Z.to_nat (Z.log2 y - 3))%nat by lia.
  now apply decimal_aux_4.
Qed.


(* ================================================================== *)
(** * The date validator *)

Section ValidarFecha.

Variable E : entorno.

Lemma valor_decimal_ascii (k : Z) :
  0 <= k <= 9 -> valor_decimal E (48 + k) = Some k.
Proof.
  intros Hk. unfold valor_decimal.
  replace ((48 <=? 48 + k) && (48 + k <=? 57)) with true
    by (symmetry; apply andb_true_intro; split; apply Z.leb_le; lia).
  f_equal. lia.
Qed.

Lemma es_digito_ascii (k : Z) : 0 <= k <= 9 -> es_digito E (48 + k) = true.
Proof. intros Hk. unfold es_digito. now rewrite valor_decimal_ascii. Qed.

Lemma digitos_2_ascii (a b : Z) (r : str) :
  0 <= a <= 9 -> 0 <= b <= 9 ->
  digitos E 2 ((48 + a) :: (48 + b) :: r) = Some ([48 + a; 48 + b], r).
Proof. intros. cbn [digitos]. now rewrite !es_digito_ascii. Qed.

Lemma digitos_4_ascii (a b c d : Z) (r : str) :
  0 <= a <= 9 -> 0 <= b <= 9 -> 0 <= c <= 9 -> 0 <= d <= 9 ->
  digitos E 4 ((48 + a) :: (48 + b) :: (48 + c) :: (48 + d) :: r)
  = Some ([48 + a; 48 + b; 48 + c; 48 + d], r).
Proof. intros. cbn [digitos]. now rewrite !es_digito_ascii. Qed.

Lemma int_grupo_2_ascii (a b : Z) :
  0 <= a <= 9 -> 0 <= b <= 9 ->
  int_grupo E [48 + a; 48 + b] = Some (10 * a + b).
Proof.
  intros. unfold int_grupo. cbn [int_desde].
  rewrite !valor_decimal_ascii by assumption. cbn [int_desde]. f_equal. lia.
Qed.

Lemma int_grupo_4_ascii (a b c d : Z) :
  0 <= a <= 9 -> 0 <= b <= 9 -> 0 <= c <= 9 -> 0 <= d <= 9 ->
  int_grupo E [48 + a; 48 + b; 48 + c; 48 + d]
  = Some (1000 * a + 100 * b + 10 * c + d).
Proof.
  intros. unfold int_grupo. cbn [int_desde].
  rewrite !valor_decimal_ascii by assumption. cbn [int_desde]. f_equal. lia.
Qed.

Lemma barra_cons (r : str) : barra (47 :: r) = Some r.
Proof. reflexivity. Qed.

Lemma validar_fecha_de_strftime (d : date) :
  Date.valid d -> 1000 <= year d <= 9999 ->
  validar_fecha E (Date.strftime_dmY d) = Some d.
Proof.
  destruct d as [y m dd]. unfold Date.valid; simpl. intros Hv Hy.
  pose proof Hv as Hc.
  unfold Date.check in Hc.
  repeat (apply andb_prop in Hc; destruct Hc as [Hc ?]).
  pose proof (DateFacts.days_in_month_pos y m).
  assert (Hm : 1 <= m <= 12) by lia.
  assert (Hd : 1 <= dd <= 31) by lia.
  unfold Date.strftime_dmY, Str.dos_digitos; simpl year; simpl month; simpl day.
  rewrite decimal_year by lia.
  assert (D : forall a, 0 <= a -> a < 100 -> 0 <= a / 10 <= 9 /\ 0 <= a mod 10 <= 9)
    by (intros; Z.div_mod_to_equations; lia).
  assert (Y : 0 <= y / 1000 <= 9 /\ 0 <= (y / 100) mod 10 <= 9
              /\ 0 <= (y / 10) mod 10 <= 9 /\ 0 <= y mod 10 <= 9)
    by (Z.div_mod_to_equations; lia).
  destruct (D dd ltac:(lia) ltac:(lia)) as [Dd1 Dd2].
  destruct (D m ltac:(lia) ltac:(lia)) as [Dm1 Dm2].
  destruct Y as (Y1 & Y2 & Y3 & Y4).
  unfold validar_fecha, re_match_patron. cbn [app].
  rewrite digitos_2_ascii by assumption. rewrite barra_cons.
  rewrite digitos_2_ascii by assumption. rewrite barra_cons.
  rewrite digitos_4_ascii by assumption. cbn [fin_de_patron].
  rewrite !int_grupo_2_ascii, int_grupo_4_ascii by assumption.
  replace (1000 * (y / 1000) + 100 * ((y / 100) mod 10) + 10 * ((y / 10) mod 10) + y mod 10) with y
    by (Z.div_mod_to_equations; lia).
  replace (10 * (m / 10) + m mod 10) with m by (Z.div_mod_to_equations; lia).
  replace (10 * (dd / 10) + dd mod 10) with dd by (Z.div_mod_to_equations; lia).
  unfold Date.new. now rewrite Hv.
Qed.

Lemma es_digito_inv (c : Z) :
  es_digito E c = true -> exists v, valor_decimal E c = Some v.
Proof. unfold es_digito. destruct (valor_decimal E c) as [v|]; [eauto|discriminate]. Qed.

Lemma digitos_inv (n : nat) : forall s g r,
  digitos E n s = Some (g, r) ->
  s = g ++ r /\ List.length g = n
  /\ Forall (fun c => exists v, valor_decimal E c = Some v) g.
Proof.
  induction n as [|n IH]; intros s g r H; cbn [digitos] in H.
  - injection H as <- <-. repeat split; constructor.
  - destruct s as [|c s']; [discriminate|].
    destruct (es_digito E c) eqn:Ec; [|discriminate].
    destruct (digitos E n s') as [[g' r']|] eqn:Ed; [|discriminate].
    injection H as <- <-. destruct (IH _ _ _ Ed) as (-> & Hl & Hf).
    repeat split; cbn; [now rewrite Hl|].
    constructor; [now apply es_digito_inv|assumption].
Qed.

Lemma digitos_intro (g r : str) :
  Forall (fun c => exists v, valor_decimal E c = Some v) g ->
  digitos E (List.length g) (g ++ r) = Some (g, r).
Proof.
  induction 1 as [|c g [v Hv] _ IH]; cbn [digitos List.length app]; [reflexivity|].
  unfold es_digito. now rewrite Hv, IH.
Qed.

Lemma barra_inv (s r : str) : barra s = Some r -> s = 47 :: r.
Proof.
  unfold barra. destruct s as [|c s']; [discriminate|].
  destruct (Z.eqb_spec c 47) as [->|]; [now intros [= ->]|discriminate].
Qed.

Lemma fin_de_patron_inv (s : str) :
  fin_de_patron s = true -> s = [] \/ s = [10].
Proof.
  unfold fin_de_patron. destruct s as [|c [|c' s']]; auto; try discriminate.
  destruct (Z.eqb_spec c 10) as [->|]; [auto|discriminate].
Qed.

Lemma int_grupo_2 (a b va vb : Z) :
  digito E a va -> digito E b vb -> int_grupo E [a; b] = Some (10 * va + vb).
Proof.
  unfold digito, int_grupo. intros Ha Hb. cbn [int_desde]. rewrite Ha, Hb.
  f_equal. lia.
Qed.

Lemma int_grupo_4 (a b c d va vb vc vd : Z) :
  digito E a va -> digito E b vb -> digito E c vc -> digito E d vd ->
  int_grupo E [a; b; c; d] = Some (1000 * va + 100 * vb + 10 * vc + vd).
Proof.
  unfold digito, int_grupo. intros Ha Hb Hc Hd. cbn [int_desde].
  rewrite Ha, Hb, Hc, Hd. f_equal. lia.
Qed.

Lemma re_match_patron_inv (s g1 g2 g3 : str) :
  re_match_patron E s = Some (g1, g2, g3) ->
  exists c1 c2 c3 c4 c5 c6 c7 c8 d1 d2 m1 m2 y1 y2 y3 y4,
    g1 = [c1; c2] /\ g2 = [c3; c4] /\ g3 = [c5; c6; c7; c8]
    /\ (s = [c1; c2; 47; c3; c4; 47; c5; c6; c7; c8]
        \/ s = [c1; c2; 47; c3; c4; 47; c5; c6; c7; c8] ++ [10])
    /\ digito E c1 d1 /\ digito E c2 d2 /\ digito E c3 m1 /\ digito E c4 m2
    /\ digito E c5 y1 /\ digito E c6 y2 /\ digito E c7 y3 /\ digito E c8 y4.
Proof.
  unfold re_match_patron. intros H.
  destruct (digitos E 2 s) as [[h1 s1]|] eqn:E1; [|discriminate].
  destruct (barra s1) as [s2|] eqn:B1; [|discriminate].
  destruct (digitos E 2 s2) as [[h2 s3]|] eqn:E2; [|discriminate].
  destruct (barra s3) as [s4|] eqn:B2; [|discriminate].
  destruct (digitos E 4 s4) as [[h3 s5]|] eqn:E3; [|discriminate].
  destruct (fin_de_patron s5) eqn:F; [|discriminate].
  injection H as <- <- <-.
  apply digitos_inv in E1, E2, E3. apply barra_inv in B1, B2.
  apply fin_de_patron_inv in F.
  destruct E1 as (-> & L1 & F1), E2 as (-> & L2 & F2), E3 as (-> & L3 & F3).
  subst s1 s3.
  destruct h1 as [|c1 [|c2 [|? ?]]]; try discriminate.
  destruct h2 as [|c3 [|c4 [|? ?]]]; try discriminate.
  destruct h3 as [|c5 [|c6 [|c7 [|c8 [|? ?]]]]]; try discriminate.
  repeat match goal with
  | H : Forall _ (_ :: _) |- _ => inversion H; subst; clear H
  | H : exists v, _ |- _ => destruct H
  end.
  do 16 eexists. repeat split; try eassumption.
  destruct F as [->| ->]; [left|right]; reflexivity.
Qed.

Lemma re_match_patron_intro (c1 c2 c3 c4 c5 c6 c7 c8 : Z) (cola : str) :
  (exists d1, digito E c1 d1) -> (exists d2, digito E c2 d2) ->
  (exists d, digito E c3 d) -> (exists d, digito E c4 d) ->
  (exists d, digito E c5 d) -> (exists d, digito E c6 d) ->
  (exists d, digito E c7 d) -> (exists d, digito E c8 d) ->
  cola = [] \/ cola = [10] ->
  re_match_patron E ([c1; c2; 47; c3; c4; 47; c5; c6; c7; c8] ++ cola)
  = Some ([c1; c2], [c3; c4], [c5; c6; c7; c8]).
Proof.
  intros H1 H2 H3 H4 H5 H6 H7 H8 Hc. unfold re_match_patron.
  change ([c1; c2; 47; c3; c4; 47; c5; c6; c7; c8] ++ cola)
    with ([c1; c2] ++ 47 :: [c3; c4] ++ 47 :: [c5; c6; c7; c8] ++ cola).
  rewrite (digitos_intro [c1; c2]) by (repeat constructor; assumption).
  rewrite barra_cons.
  rewrite (digitos_intro [c3; c4]) by (repeat constructor; assumption).
  rewrite barra_cons.
  rewrite (digitos_intro [c5; c6; c7; c8]) by (repeat constructor; assumption).
  now destruct Hc as [->| ->].
Qed.

Theorem validar_fecha_spec (s : str) (f : date) :
  validar_fecha E s = Some f
  <-> denota E s f \/ exists s0, s = s0 ++ [10] /\ denota E s0 f.
Proof.
  split.
  - unfold validar_fecha. intros H.
    destruct (re_match_patron E s) as [[[g1 g2] g3]|] eqn:R; [|discriminate].
    apply re_match_patron_inv in R.
    destruct R as (c1 & c2 & c3 & c4 & c5 & c6 & c7 & c8 & d1 & d2 & m1 & m2
                   & y1 & y2 & y3 & y4 & -> & -> & -> & Hs
                   & ? & ? & ? & ? & ? & ? & ? & ?).
    erewrite !int_grupo_2, int_grupo_4 in H by eassumption.
    unfold Date.new in H.
    destruct (Date.check _ _ _) eqn:C; [|discriminate]. injection H as <-.
    assert (D : denota E [c1; c2; 47; c3; c4; 47; c5; c6; c7; c8]
                  (mkdate (1000 * y1 + 100 * y2 + 10 * y3 + y4)
                     (10 * m1 + m2) (10 * d1 + d2))).
    { do 16 eexists. repeat split; try eassumption. }
    destruct Hs as [->| ->]; [left; exact D|right; eexists; split; [reflexivity|exact D]].
  - intros H.
    assert (G : forall s0 cola, denota E s0 f -> cola = [] \/ cola = [10] ->
                validar_fecha E (s0 ++ cola) = Some f).
    { intros s0 cola (c1 & c2 & c3 & c4 & c5 & c6 & c7 & c8 & d1 & d2 & m1 & m2
                   & y1 & y2 & y3 & y4 & -> & ? & ? & ? & ? & ? & ? & ? & ?
                   & -> & V) Hc.
      unfold validar_fecha. rewrite re_match_patron_intro by eauto.
      erewrite !int_grupo_2, int_grupo_4 by eassumption.
      unfold Date.new. unfold Date.valid in V. cbn [year month day] in V.
      now rewrite V. }
    destruct H as [D|(s0 & -> & D)].
    + rewrite <- (app_nil_r s). apply G; auto.
    + apply G; auto.
Qed.


(** C10. Formatting a date of the calendar whose year has four digits
    (1000 to 9999) as dd/mm/yyyy and validating the text gives the date
    back. *)
Theorem C10_validar_fecha_strftime (d : date) :
  Date.valid d -> 1000 <= year d <= 9999 ->
  validar_fecha E (Date.strftime_dmY d) = Some d.
Proof. apply validar_fecha_de_strftime. Qed.

(** The text of such a date is of the form dd/mm/yyyy and spells it. *)
Lemma strftime_denota (d : date) :
  Date.valid d -> 1000 <= year d <= 9999 ->
  denota E (Date.strftime_dmY d) d.
Proof.
  intros V Hy. pose proof (validar_fecha_de_strftime d V Hy) as H.
  apply validar_fecha_spec in H. destruct H as [H|(s0 & Hs & D)]; [exact H|].
  exfalso.
  destruct D as (c1 & c2 & c3 & c4 & c5 & c6 & c7 & c8 & d1 & d2 & m1 & m2
                 & y1 & y2 & y3 & y4 & -> & _).
  unfold Date.strftime_dmY, Str.dos_digitos in Hs.
  rewrite decimal_year in Hs by assumption.
  apply (f_equal (@List.length Z)) in Hs. discriminate Hs.
Qed.

(** A line read from the console holds no line feed; on such a string the
    validator returns a date exactly when the string is of the form
    dd/mm/yyyy and spells that date. *)
Lemma validar_fecha_linea (s : str) (f : date) :
  ~ In 10 s -> (validar_fecha E s = Some f <-> denota E s f).
Proof.
  intros Hs. rewrite validar_fecha_spec. split; [|now left].
  intros [D|(s0 & -> & _)]; [exact D|].
  exfalso. apply Hs. apply in_or_app. right. now left.
Qed.

(** Called on its own with a string that ends in a line feed, the
    validator returns a date for a string that is not of the form
    dd/mm/yyyy: the text 15/03/2024 followed by a line feed is taken as the
    date 15/03/2024, because [$] also matches before a final line feed. *)
Lemma validar_fecha_salto_final :
  validar_fecha E (py "15/03/2024" ++ [10]) = Some (mkdate 2024 3 15)
  /\ forall f, ~ denota E (py "15/03/2024" ++ [10]) f.
Proof.
  split.
  - apply validar_fecha_spec. right. exists (py "15/03/2024").
    split; [reflexivity|].
    exists 49, 53, 48, 51, 50, 48, 50, 52, 1, 5, 0, 3, 2, 0, 2, 4.
    repeat split; try reflexivity.
  - intros f (c1 & c2 & c3 & c4 & c5 & c6 & c7 & c8 & d1 & d2 & m1 & m2
               & y1 & y2 & y3 & y4 & Hs & _).
    apply (f_equal (@List.length Z)) in Hs. vm_compute in Hs. discriminate Hs.
Qed.

Lemma lstrip_cabeza (s : str) (c : Z) (r : str) :
  Str.lstrip s = c :: r -> Str.isspace c = false.
Proof.
  induction s as [|x s IH]; cbn [Str.lstrip]; [discriminate|].
  destruct (Str.isspace x) eqn:Hx; [exact IH|].
  intros [= <- _]. exact Hx.
Qed.

(** What [strip] returns does not end in white space, so not in a line
    feed. *)
Lemma strip_sin_salto_final (linea s0 : str) : Str.strip linea <> s0 ++ [10].
Proof.
  unfold Str.strip, Str.rstrip. intros H.
  apply (f_equal (@rev Z)) in H. rewrite rev_involutive, rev_app_distr in H.
  cbn [rev app] in H. apply lstrip_cabeza in H. discriminate H.
Qed.

(** C3. [solicitar_fecha], the one caller of the validator, hands it the
    line read with the white space around it taken off.  For every line,
    the validator returns a date on that string exactly when the string is
    two digits, [/], two digits, [/], four digits and spells that date of
    the calendar, and returns no date exactly when the string spells none;
    so the round of the prompt accepts the line with that date in the
    first case and rejects it, to ask again, in the second. *)
Theorem C3_validar_fecha_estricta (linea : str) (f : date) :
  let s := Str.strip linea in
  (validar_fecha E s = Some f <-> denota E s f)
  /\ (validar_fecha E s = None <-> forall f', ~ denota E s f')
  /\ (probar_fecha E linea = inl f <-> denota E s f)
  /\ ((exists m, probar_fecha E linea = inr m) <-> forall f', ~ denota E s f').
Proof.
  intros s.
  assert (A : forall g, validar_fecha E s = Some g <-> denota E s g).
  { intros g. rewrite validar_fecha_spec. split; [|now left].
    intros [D|(s0 & Hs & _)]; [exact D|].
    exfalso. exact (strip_sin_salto_final _ _ Hs). }
  assert (B : validar_fecha E s = None <-> forall f', ~ denota E s f').
  { split.
    - intros H f' D. apply A in D. congruence.
    - intros H. destruct (validar_fecha E s) as [g|] eqn:Hg; [|reflexivity].
      exfalso. apply (H g). now apply A. }
  split; [apply A|]. split; [exact B|].
  unfold probar_fecha. fold s. split.
  - rewrite <- A. destruct (validar_fecha E s) as [g|]; split; congruence.
  - rewrite <- B. destruct (validar_fecha E s) as [g|]; split.
    + intros [m H]. discriminate.
    + discriminate.
    + reflexivity.
    + eauto.
Qed.

End ValidarFecha.

Lemma C10_validar_fecha_strftime_witness :
  Date.valid (mkdate 2024 6 15) /\ 1000 <= 2024 <= 9999
  /\ validar_fecha Ejemplo.E (Date.strftime_dmY (mkdate 2024 6 15))
     = Some (mkdate 2024 6 15).
Proof.
  split; [reflexivity|]. split; [lia|].
  apply (C10_validar_fecha_strftime Ejemplo.E (mkdate 2024 6 15));
    [reflexivity|cbn; lia].
Defined.

Lemma Str_eqb_eq (a b : str) : Str.eqb a b = true <-> a = b.
Proof.
  unfold Str.eqb. destruct (list_eq_dec Z.eq_dec a b); split; congruence.
Qed.

(* ================================================================== *)
(** * The prompt loops *)

Section Consola.

Context {A : Type}.
Variable prompt : str.
Variable probar : str -> A + list evento.

(** Rejected lines are asked again, until a line is accepted. *)
Lemma reintentar_desde_acepta (malas : list str) :
  forall (buena : str) (resto : list str) (sal : list evento) (a : A),
  Forall (rechazada probar) malas -> probar buena = inl a ->
  reintentar_desde prompt probar (malas ++ buena :: resto) sal
  = (Ok a, mkconsola resto
             (sal ++ flat_map (rechazo prompt probar) malas ++ [Pregunta prompt])).
Proof.
  induction malas as [|l malas IH]; intros buena resto sal a Hm Hb.
  - cbn. now rewrite Hb.
  - inversion Hm as [|? ? [m Hl] Hm']; subst.
    cbn [app reintentar_desde flat_map]. rewrite Hl.
    rewrite (IH _ _ _ _ Hm' Hb). unfold rechazo at 2. rewrite Hl.
    now rewrite <- !app_assoc.
Qed.

(** The loop ends only with an accepted line or at the end of the input. *)
Lemma reintentar_desde_resultado (lineas : list str) :
  forall (sal : list evento) (r : result A) (c' : consola),
  reintentar_desde prompt probar lineas sal = (r, c') ->
  (r = Raise EOFError /\ entrada c' = [])
  \/ (exists malas buena a,
        lineas = malas ++ buena :: entrada c'
        /\ Forall (rechazada probar) malas /\ probar buena = inl a /\ r = Ok a).
Proof.
  induction lineas as [|l lineas IH]; intros sal r c' H; cbn in H.
  - injection H as <- <-. now left.
  - destruct (probar l) as [a|m] eqn:Hl.
    + injection H as <- <-. right. exists [], l, a. cbn. auto.
    + destruct (IH _ _ _ H) as [?|(malas & buena & a & -> & Hm & Hb & ->)];
        [now left|].
      right. exists (l :: malas), buena, a. repeat split; auto.
      constructor; [now exists m|assumption].
Qed.

(** No prompt loop gives back lines it has read. *)
Lemma reintentar_desde_entrada (lineas : list str) :
  forall (sal : list evento) (r : result A) (c' : consola),
  reintentar_desde prompt probar lineas sal = (r, c') ->
  (List.length (entrada c') <= List.length lineas)%nat
  /\ (forall a, r = Ok a ->
      (List.length (entrada c') < List.length lineas)%nat).
Proof.
  induction lineas as [|l lineas IH]; intros sal r c' H; cbn in H.
  - injection H as <- <-. split; [cbn; lia|discriminate].
  - destruct (probar l) as [a|m].
    + injection H as <- <-. cbn. split; intros; lia.
    + destruct (IH _ _ _ H) as [H1 H2]. cbn. split; [lia|].
      intros a Ha. specialize (H2 a Ha). lia.
Qed.

End Consola.

(* ================================================================== *)
(** * The question about subdirectories *)

(** C8, as the code has it.  The question defaults to yes: the recursive
    search is chosen exactly when the answer, in lower case and without
    the white space around it, is neither "n" nor "no"; so it is chosen
    for an empty answer and for the affirmative answers, and for any other
    text as well. *)
Theorem C8_incluir_salvo_n_o_no (linea : str) (resto : list str)
    (sal : list evento) :
  let respuesta := Str.strip (Str.lower linea) in
  exists incluir,
    preguntar_incluir_subcarpetas (mkconsola (linea :: resto) sal)
    = (Ok incluir,
       mkconsola resto
         (sal ++ [Imprime [];
                  Pregunta (py "¿Incluir subcarpetas en la búsqueda? (s/n) [s]: ")]))
    /\ (incluir = true <-> respuesta <> py "n" /\ respuesta <> py "no")
    /\ (respuesta_afirmativa respuesta = true -> incluir = true).
Proof.
  intros respuesta.
  exists (negb (Str.eqb respuesta (py "n")) && negb (Str.eqb respuesta (py "no"))).
  split; [|split].
  - unfold preguntar_incluir_subcarpetas, bind, print, emit, input, ret.
    cbn [entrada salida]. now rewrite <- app_assoc.
  - rewrite andb_true_iff, !negb_true_iff.
    split.
    + intros [H1 H2]. split; intros Heq; rewrite Heq in *; discriminate.
    + intros [H1 H2]. split.
      * destruct (Str.eqb respuesta (py "n")) eqn:Q; [|reflexivity].
        apply Str_eqb_eq in Q. contradiction.
      * destruct (Str.eqb respuesta (py "no")) eqn:Q; [|reflexivity].
        apply Str_eqb_eq in Q. contradiction.
  - unfold respuesta_afirmativa. intros H.
    destruct (Str.eqb respuesta (py "n")) eqn:Q1.
    { apply Str_eqb_eq in Q1. rewrite Q1 in H. discriminate H. }
    destruct (Str.eqb respuesta (py "no")) eqn:Q2.
    { apply Str_eqb_eq in Q2. rewrite Q2 in H. discriminate H. }
    reflexivity.
Qed.

(** C8, as the specification has it, fails: the answer "x" is neither empty
    nor affirmative, and the recursive search is chosen. *)
Lemma C8_contraejemplo :
  respuesta_afirmativa (Str.strip (Str.lower (py "x"))) = false
  /\ fst (preguntar_incluir_subcarpetas (mkconsola [py "x"] [])) = Ok true.
Proof. split; reflexivity. Qed.

(* ================================================================== *)
(** * Filtering *)

Lemma sublista_vacia {A : Type} (l : list A) : sublista [] l.
Proof. induction l; constructor; assumption. Qed.

Lemma sublista_filter {A : Type} (p : A -> bool) (l : list A) :
  sublista (filter p l) l.
Proof.
  induction l as [|x l IH]; cbn; [constructor|].
  destruct (p x); constructor; assumption.
Qed.

(** What being a sublist gives: every element comes from the input, none
    is added, and the order is kept. *)
Lemma sublista_In {A : Type} (r l : list A) :
  sublista r l -> forall x, In x r -> In x l.
Proof.
  induction 1; intros y Hy; cbn in *; [assumption| |right; auto].
  destruct Hy as [->|Hy]; [now left|right; auto].
Qed.

Lemma sublista_length {A : Type} (r l : list A) :
  sublista r l -> (List.length r <= List.length l)%nat.
Proof. induction 1; cbn; lia. Qed.

Section Filtrar.

Variable E : entorno.

Lemma solicitar_fecha_raise (mensaje : str) (c c' : consola) (e : exn) :
  solicitar_fecha E mensaje c = (Raise e, c') -> e = EOFError.
Proof.
  unfold solicitar_fecha, reintentar. intros H.
  apply reintentar_desde_resultado in H.
  destruct H as [[H _]|(? & ? & ? & _ & _ & _ & H)]; congruence.
Qed.

Lemma solicitar_dias_raise (c c' : consola) (e : exn) :
  solicitar_dias E c = (Raise e, c') -> e = EOFError.
Proof.
  unfold solicitar_dias, reintentar. intros H.
  apply reintentar_desde_resultado in H.
  destruct H as [[H _]|(? & ? & ? & _ & _ & _ & H)]; congruence.
Qed.

Lemma sub_days_raise (f : date) (k : Z) (e : exn) :
  Date.sub_days f k = Raise e -> e = OverflowError.
Proof.
  unfold Date.sub_days. destruct (Z.abs k >? 999999999); [congruence|].
  destruct ((0 <? _) && _); congruence.
Qed.

(** C9. Whatever the option and the dates typed, the filter either returns
    a sublist of the list it was given (the same entries, none added or
    repeated, in the same order) or does not return: the input ended
    ([EOFError]) or the reference date of option 5 is out of range
    ([OverflowError]). *)
Theorem C9_filtrar_sublista (carpetas : list carpeta) (opcion : Z)
    (c : consola) :
  match filtrar_por_opcion E carpetas opcion c with
  | (Ok r, _) => sublista r carpetas
  | (Raise e, _) => e = EOFError \/ e = OverflowError
  end.
Proof.
  unfold filtrar_por_opcion.
  destruct (opcion =? 1); [|destruct (opcion =? 2); [|destruct (opcion =? 3);
    [|destruct (opcion =? 4); [|destruct (opcion =? 5)]]]].
  1-3: unfold bind;
    match goal with
    | |- context [solicitar_fecha E ?m ?c0] =>
        destruct (solicitar_fecha E m c0) as [[f|e] c1] eqn:H1
    end;
    [apply sublista_filter|left; eapply solicitar_fecha_raise; eassumption].
  - unfold bind.
    destruct (solicitar_fecha E _ c) as [[f1|e] c1] eqn:H1;
      [|left; eapply solicitar_fecha_raise; eassumption].
    destruct (solicitar_fecha E _ c1) as [[f2|e] c2] eqn:H2;
      [|left; eapply solicitar_fecha_raise; eassumption].
    destruct (Date.gtb f1 f2); cbn; [apply sublista_vacia|apply sublista_filter].
  - unfold bind.
    destruct (solicitar_dias E c) as [[dias|e] c1] eqn:H1;
      [|left; eapply solicitar_dias_raise; eassumption].
    destruct (Date.sub_days (hoy E) dias) as [f|e] eqn:H2; cbn;
      [apply sublista_filter|right; eapply sub_days_raise; eassumption].
  - cbn. apply sublista_vacia.
Qed.

(** Lines that are not dates are asked again; the first date is taken. *)
Lemma solicitar_fecha_acepta (mensaje : str) (malas : list str)
    (buena : str) (resto : list str) (sal : list evento) (f : date) :
  Forall (fun l => validar_fecha E (Str.strip l) = None) malas ->
  validar_fecha E (Str.strip buena) = Some f ->
  solicitar_fecha E mensaje (mkconsola (malas ++ buena :: resto) sal)
  = (Ok f,
     mkconsola resto
       (sal
        ++ flat_map (rechazo (mensaje ++ py " [dd/mm/aaaa]: ") (probar_fecha E))
             malas
        ++ [Pregunta (mensaje ++ py " [dd/mm/aaaa]: ")])).
Proof.
  intros Hm Hb. unfold solicitar_fecha, reintentar. cbn [entrada salida].
  apply reintentar_desde_acepta.
  - eapply Forall_impl; [|exact Hm]. intros l Hl. unfold rechazada, probar_fecha.
    rewrite Hl. eauto.
  - unfold probar_fecha. now rewrite Hb.
Qed.

(** With the reference date typed, options 1 to 3 return the entries
    modified after, before and on that date. *)
Lemma filtrar_por_fecha (carpetas : list carpeta) (linea : str)
    (resto : list str) (sal : list evento) (fecha_ref : date) :
  validar_fecha E (Str.strip linea) = Some fecha_ref ->
  let c := mkconsola (linea :: resto) sal in
  fst (filtrar_por_opcion E carpetas 1 c)
  = Ok (filter (fun x => Date.ltb fecha_ref (fecha_modificacion x)) carpetas)
  /\ fst (filtrar_por_opcion E carpetas 2 c)
     = Ok (filter (fun x => Date.ltb (fecha_modificacion x) fecha_ref) carpetas)
  /\ fst (filtrar_por_opcion E carpetas 3 c)
     = Ok (filter (fun x => Date.eqb (fecha_modificacion x) fecha_ref) carpetas).
Proof.
  intros H c. unfold filtrar_por_opcion. cbn [Z.eqb Pos.eqb]. unfold bind.
  subst c.
  rewrite !(solicitar_fecha_acepta _ [] linea resto sal fecha_ref (Forall_nil _) H).
  repeat split.
Qed.

(** C4. With the two dates of option 4 typed: if the start is after the
    end, the filter prints the error and returns the empty list whatever
    the entries are; otherwise it returns the entries whose date lies
    between start and end, both included. *)
Theorem C4_rango_de_fechas (carpetas : list carpeta) (c0 c1 c2 : consola)
    (fecha_inicio fecha_fin : date) :
  solicitar_fecha E (py "Ingrese la fecha de inicio") c0 = (Ok fecha_inicio, c1) ->
  solicitar_fecha E (py "Ingrese la fecha de fin") c1 = (Ok fecha_fin, c2) ->
  (Date.lt fecha_fin fecha_inicio ->
   filtrar_por_opcion E carpetas 4 c0
   = (Ok [],
      mkconsola (entrada c2)
        (salida c2
         ++ [Imprime (py "❌ La fecha de inicio debe ser anterior a la fecha de fin.")])))
  /\ (Date.le fecha_inicio fecha_fin ->
      let r :=
        filter
          (fun x => Date.leb fecha_inicio (fecha_modificacion x)
                    && Date.leb (fecha_modificacion x) fecha_fin)
          carpetas in
      filtrar_por_opcion E carpetas 4 c0 = (Ok r, c2)
      /\ sublista r carpetas
      /\ forall x, In x r <->
           In x carpetas
           /\ Date.le fecha_inicio (fecha_modificacion x)
           /\ Date.le (fecha_modificacion x) fecha_fin).
Proof.
  intros H1 H2. unfold filtrar_por_opcion. cbn [Z.eqb Pos.eqb]. unfold bind.
  rewrite H1, H2. unfold Date.gtb, Date.lt, Date.le. split.
  - intros Hlt. rewrite Hlt. reflexivity.
  - intros Hle.
    assert (Hn : Date.ltb fecha_fin fecha_inicio = false).
    { destruct (Date.ltb fecha_fin fecha_inicio) eqn:L; [|reflexivity].
      apply DateFacts.leb_le in Hle. destruct Hle as [L'| ->].
      - pose proof (DateFacts.ltb_trans _ _ _ L L') as T.
        now rewrite DateFacts.ltb_irrefl in T.
      - now rewrite DateFacts.ltb_irrefl in L. }
    rewrite Hn. split; [reflexivity|]. split; [apply sublista_filter|].
    intros x. rewrite filter_In, andb_true_iff. tauto.
Qed.

End Filtrar.

Lemma C4_rango_de_fechas_witness :
  let c0 := mkconsola [py "15/06/2024"; py "01/01/2024"] [] in
  let c0' := mkconsola [py "01/01/2024"; py "01/01/2025"] [] in
  fst (filtrar_por_opcion Ejemplo.E [Ejemplo.a; Ejemplo.b; Ejemplo.c] 4 c0) = Ok []
  /\ fst (filtrar_por_opcion Ejemplo.E [Ejemplo.a; Ejemplo.b; Ejemplo.c] 4 c0')
     = Ok [Ejemplo.a; Ejemplo.b; Ejemplo.c].
Proof.
  intros c0 c0'. split.
  - pose proof (C4_rango_de_fechas Ejemplo.E [Ejemplo.a; Ejemplo.b; Ejemplo.c]
                  c0 _ _ (mkdate 2024 6 15) (mkdate 2024 1 1)
                  eq_refl eq_refl) as [H _].
    rewrite (H eq_refl). reflexivity.
  - pose proof (C4_rango_de_fechas Ejemplo.E [Ejemplo.a; Ejemplo.b; Ejemplo.c]
                  c0' _ _ (mkdate 2024 1 1) (mkdate 2025 1 1)
                  eq_refl eq_refl) as [_ H].
    destruct (H eq_refl) as (Hr & _). rewrite Hr. reflexivity.
Defined.

Section UltimosDias.

Variable E : entorno.

Lemma solicitar_dias_acepta (malas : list str) (buena : str)
    (resto : list str) (sal : list evento) (dias : Z) :
  Forall (fun l => match py_int E l with Some d => d <= 0 | None => True end)
    malas ->
  py_int E buena = Some dias -> 0 < dias ->
  solicitar_dias E (mkconsola (malas ++ buena :: resto) sal)
  = (Ok dias,
     mkconsola resto
       (sal
        ++ flat_map (rechazo (py "Ingrese el número de días: ") (probar_dias E))
             malas
        ++ [Pregunta (py "Ingrese el número de días: ")])).
Proof.
  intros Hm Hb Hd. unfold solicitar_dias, reintentar. cbn [entrada salida].
  apply reintentar_desde_acepta.
  - eapply Forall_impl; [|exact Hm]. intros l Hl. unfold rechazada, probar_dias.
    cbv beta in Hl. destruct (py_int E l) as [d|]; [|eauto].
    replace (d >? 0) with false by (symmetry; rewrite Z.gtb_ltb; apply Z.ltb_ge; lia).
    eauto.
  - unfold probar_dias. rewrite Hb.
    replace (dias >? 0) with true by (symmetry; rewrite Z.gtb_ltb; apply Z.ltb_lt; lia).
    reflexivity.
Qed.

(** The date [k] days before a date of the calendar, when there is one. *)
Lemma sub_days_ok (f : date) (k : Z) :
  Date.valid f -> 0 < k < Date.toordinal f ->
  Date.sub_days f k = Ok (Date.fromordinal (Date.toordinal f - k))
  /\ Date.valid (Date.fromordinal (Date.toordinal f - k))
  /\ Date.toordinal (Date.fromordinal (Date.toordinal f - k))
     = Date.toordinal f - k.
Proof.
  intros V Hk. pose proof (DateFacts.toordinal_max f V) as Hmax.
  unfold Date.MAXORDINAL in Hmax.
  unfold Date.sub_days.
  replace (Z.abs k >? 999999999) with false
    by (symmetry; rewrite Z.gtb_ltb; apply Z.ltb_ge; lia).
  replace ((0 <? Date.toordinal f - k) && (Date.toordinal f - k <=? Date.MAXORDINAL))
    with true
    by (symmetry; apply andb_true_intro; split;
        [apply Z.ltb_lt; lia|apply Z.leb_le; unfold Date.MAXORDINAL; lia]).
  split; [reflexivity|]. split.
  - apply DateFacts.fromordinal_valid. unfold Date.MAXORDINAL. lia.
  - apply DateFacts.toordinal_fromordinal. lia.
Qed.

(** Option 5 while the date asked for exists.  Lines that are not a
    positive integer are rejected and asked again.  With a positive N
    smaller than the ordinal of today, so that N days before today is a
    date of the calendar, the filter keeps exactly the entries modified on
    or after that date; with N=1 the entries modified today or yesterday
    are kept. *)
Lemma ultimos_dias_en_rango (carpetas : list carpeta) (malas : list str)
    (buena : str) (resto : list str) (sal : list evento) (dias : Z) :
  Forall (fun l => match py_int E l with Some d => d <= 0 | None => True end)
    malas ->
  py_int E buena = Some dias -> 0 < dias ->
  Date.valid (hoy E) -> dias < Date.toordinal (hoy E) ->
  let fecha_inicio := Date.fromordinal (Date.toordinal (hoy E) - dias) in
  let r :=
    filter (fun x => Date.geb (fecha_modificacion x) fecha_inicio) carpetas in
  Date.valid fecha_inicio
  /\ Date.toordinal fecha_inicio = Date.toordinal (hoy E) - dias
  /\ filtrar_por_opcion E carpetas 5 (mkconsola (malas ++ buena :: resto) sal)
     = (Ok r,
        mkconsola resto
          (sal
           ++ flat_map
                (rechazo (py "Ingrese el número de días: ") (probar_dias E))
                malas
           ++ [Pregunta (py "Ingrese el número de días: ")]))
  /\ (forall x, In x r <->
       In x carpetas /\ Date.le fecha_inicio (fecha_modificacion x))
  /\ (forall x, Date.valid (fecha_modificacion x) ->
       (In x r <->
        In x carpetas
        /\ Date.toordinal (hoy E) - dias
           <= Date.toordinal (fecha_modificacion x)))
  /\ (dias = 1 ->
      forall x, In x carpetas ->
        fecha_modificacion x = hoy E \/ fecha_modificacion x = fecha_inicio ->
        In x r).
Proof.
  intros Hm Hb Hd V Hk fecha_inicio r.
  destruct (sub_days_ok (hoy E) dias V ltac:(lia)) as (Hs & Vi & Ho).
  fold fecha_inicio in Hs, Vi, Ho.
  assert (Hin : forall x, In x r <->
            In x carpetas /\ Date.le fecha_inicio (fecha_modificacion x)).
  { intros x. unfold r. rewrite filter_In. unfold Date.geb, Date.le. tauto. }
  split; [exact Vi|]. split; [exact Ho|]. split; [|split; [exact Hin|split]].
  - unfold filtrar_por_opcion. cbn [Z.eqb Pos.eqb]. unfold bind.
    rewrite (solicitar_dias_acepta malas buena resto sal dias Hm Hb Hd).
    rewrite Hs. reflexivity.
  - intros x Vx. rewrite Hin. unfold Date.le.
    rewrite (DateFacts.leb_toordinal _ _ Vi Vx), Ho. tauto.
  - intros H1 x Hx Hf. apply Hin. split; [assumption|]. unfold Date.le.
    destruct Hf as [-> | ->]; [|apply DateFacts.leb_refl].
    apply (DateFacts.leb_toordinal _ _ Vi V). lia.
Qed.

(** C5. The code breaks the specification on a positive N that reaches the ordinal
    of today: the line is accepted as the number of days, and then the
    subtraction of N days from today raises [OverflowError]; no entry is
    kept or left out, the filter returns no list, whatever the entries
    are. *)
Theorem C5_ultimos_dias_desborda (carpetas : list carpeta)
    (malas : list str) (buena : str) (resto : list str) (sal : list evento)
    (dias : Z) :
  Forall (fun l => match py_int E l with Some d => d <= 0 | None => True end)
    malas ->
  py_int E buena = Some dias -> 0 < dias ->
  Date.valid (hoy E) -> Date.toordinal (hoy E) <= dias ->
  filtrar_por_opcion E carpetas 5 (mkconsola (malas ++ buena :: resto) sal)
  = (Raise OverflowError,
     mkconsola resto
       (sal
        ++ flat_map
             (rechazo (py "Ingrese el número de días: ") (probar_dias E))
             malas
        ++ [Pregunta (py "Ingrese el número de días: ")])).
Proof.
  intros Hm Hb Hd V Hk.
  unfold filtrar_por_opcion. cbn [Z.eqb Pos.eqb]. unfold bind.
  rewrite (solicitar_dias_acepta malas buena resto sal dias Hm Hb Hd).
  unfold Date.sub_days.
  destruct (Z.abs dias >? 999999999); [reflexivity|].
  replace (0 <? Date.toordinal (hoy E) - dias) with false
    by (symmetry; apply Z.ltb_ge; lia).
  reflexivity.
Qed.

End UltimosDias.

Lemma ultimos_dias_en_rango_ejemplo :
  fst (filtrar_por_opcion Ejemplo.E [Ejemplo.a; Ejemplo.b; Ejemplo.c] 5
         (mkconsola [py "cero"; py "0"; py "-3"; py "700"] []))
  = Ok [Ejemplo.c].
Proof.
  pose proof (ultimos_dias_en_rango Ejemplo.E [Ejemplo.a; Ejemplo.b; Ejemplo.c]
                [py "cero"; py "0"; py "-3"] (py "700") [] [] 700) as H.
  cbv zeta in H.
  destruct H as (_ & _ & H & _).
  - repeat constructor; vm_compute; try exact I; discriminate.
  - reflexivity.
  - lia.
  - reflexivity.
  - vm_compute. reflexivity.
  - cbn [app] in H. rewrite H. reflexivity.
Defined.

Lemma C5_ultimos_dias_desborda_witness :
  filtrar_por_opcion Ejemplo.E [Ejemplo.a; Ejemplo.b; Ejemplo.c] 5
    (mkconsola [py "0"; py "1000000"] [])
  = (Raise OverflowError,
     mkconsola []
       [Pregunta (py "Ingrese el número de días: ");
        Imprime (py "❌ El número de días debe ser positivo.");
        Pregunta (py "Ingrese el número de días: ")]).
Proof.
  apply (C5_ultimos_dias_desborda Ejemplo.E [Ejemplo.a; Ejemplo.b; Ejemplo.c]
           [py "0"] (py "1000000") [] [] 1000000).
  - repeat constructor. vm_compute. discriminate.
  - reflexivity.
  - lia.
  - reflexivity.
  - vm_compute. discriminate.
Defined.

(** A session on the example machine, on 06/11/2026, in which 1000000 is
    typed as the number of days of option 5: the exception leaves
    [ejecutar], [main] prints the message of the unexpected error and ends
    the process with status 1; no result is shown and the two lines that
    were still to be read are not read. *)
Example sesion_que_desborda :
  let lineas := [py "/datos"; py "n"; py "5"; py "1000000"; py "n"; py "n"] in
  let '(r, c) := main Ejemplo.E (mkconsola lineas []) in
  r = Exit 1
  /\ entrada c = [py "n"; py "n"]
  /\ last (salida c) Limpia
     = Imprime (10 :: py "❌ Error inesperado: "
                ++ texto_exn Ejemplo.E OverflowError)
  /\ filter es_dialogo (salida c)
     = [Pregunta (py "Ingrese la ruta donde buscar (Enter para directorio actual): ");
        Pregunta (py "¿Incluir subcarpetas en la búsqueda? (s/n) [s]: ");
        Pregunta (py "Seleccione una opción (1-5): ");
        Pregunta (py "Ingrese el número de días: ")].
Proof. vm_compute. repeat split. Qed.

(* ================================================================== *)
(** * The listing *)

Section Orden.

Lemma insertar_perm (x : carpeta) (l : list carpeta) :
  Permutation (insertar x l) (x :: l).
Proof.
  induction l as [|y l IH]; cbn; [reflexivity|].
  destruct (Date.ltb _ _); [|reflexivity].
  rewrite IH. apply perm_swap.
Qed.

Lemma sorted_perm (l : list carpeta) : Permutation (sorted l) l.
Proof.
  induction l as [|x l IH]; cbn; [reflexivity|].
  rewrite insertar_perm. now constructor.
Qed.

Lemma insertar_ordenada (x : carpeta) (l : list carpeta) :
  StronglySorted antes l -> StronglySorted antes (insertar x l).
Proof.
  induction 1 as [|y l Hs IH Hy]; cbn; [repeat constructor|].
  destruct (Date.ltb (fecha_modificacion y) (fecha_modificacion x)) eqn:L.
  - constructor; [assumption|].
    apply (Permutation_Forall (Permutation_sym (insertar_perm x l))).
    constructor; [|assumption].
    unfold antes, Date.le. apply DateFacts.leb_le. now left.
  - apply DateFacts.ltb_false_leb in L.
    constructor; [now constructor|]. constructor; [exact L|].
    eapply Forall_impl; [|exact Hy]. intros z Hz.
    unfold antes, Date.le in *. eapply DateFacts.leb_trans; eassumption.
Qed.

Lemma sorted_ordenada (l : list carpeta) : StronglySorted antes (sorted l).
Proof.
  induction l as [|x l IH]; cbn; [constructor|].
  now apply insertar_ordenada.
Qed.

(** The sort is stable: entries of one date keep the order they had. *)
Lemma insertar_estable (d : date) (x : carpeta) (l : list carpeta) :
  StronglySorted antes l ->
  filter (fun y => Date.eqb (fecha_modificacion y) d) (insertar x l)
  = filter (fun y => Date.eqb (fecha_modificacion y) d) (x :: l).
Proof.
  induction 1 as [|y l Hs IH Hy]; [reflexivity|].
  cbn [insertar].
  destruct (Date.ltb (fecha_modificacion y) (fecha_modificacion x)) eqn:L;
    [|reflexivity].
  cbn [filter] in *. rewrite IH.
  destruct (Date.eqb (fecha_modificacion x) d) eqn:Ex;
    destruct (Date.eqb (fecha_modificacion y) d) eqn:Ey; try reflexivity.
  apply DateFacts.eqb_eq in Ex, Ey. rewrite Ex, Ey in L.
  now rewrite DateFacts.ltb_irrefl in L.
Qed.

Lemma sorted_estable (d : date) (l : list carpeta) :
  filter (fun y => Date.eqb (fecha_modificacion y) d) (sorted l)
  = filter (fun y => Date.eqb (fecha_modificacion y) d) l.
Proof.
  induction l as [|x l IH]; [reflexivity|].
  cbn [sorted fold_right]. fold (sorted l).
  rewrite insertar_estable by apply sorted_ordenada.
  cbn [filter]. now rewrite IH.
Qed.

Lemma enumerate_nth (l : list carpeta) :
  forall (k : Z) (i : nat),
  nth_error (enumerate l k) i
  = option_map (fun x => (k + Z.of_nat i, x)) (nth_error l i).
Proof.
  induction l as [|x l IH]; intros k i; destruct i; cbn [enumerate nth_error option_map];
    try reflexivity.
  - do 2 f_equal. lia.
  - rewrite IH. destruct (nth_error l i); cbn [option_map]; [|reflexivity].
    do 2 f_equal. lia.
Qed.

Lemma enumerate_length (l : list carpeta) :
  forall k, List.length (enumerate l k) = List.length l.
Proof. induction l; intros k; cbn; [reflexivity|now rewrite IHl]. Qed.

Lemma listado_length (l : list carpeta) :
  List.length (listado l) = List.length l.
Proof.
  unfold listado. rewrite length_map, enumerate_length.
  apply Permutation_length, sorted_perm.
Qed.

Lemma listado_nth (l : list carpeta) (i : nat) (x : carpeta) :
  nth_error (sorted l) i = Some x ->
  nth_error (listado l) i = Some (linea_resultado (Z.of_nat i + 1) x).
Proof.
  intros H. unfold listado. rewrite nth_error_map, enumerate_nth, H.
  cbn [option_map fst snd]. do 2 f_equal. lia.
Qed.

Lemma print_todas_salida (ls : list str) :
  forall c, print_todas ls c
            = (Ok tt, mkconsola (entrada c) (salida c ++ map Imprime ls)).
Proof.
  induction ls as [|l ls IH]; intros [ent sal]; cbn.
  - unfold ret. now rewrite app_nil_r.
  - unfold bind, print, emit. cbn [entrada salida]. rewrite IH.
    cbn [entrada salida]. now rewrite <- app_assoc.
Qed.

Variable E : entorno.

(** C6. For a list that is not empty, the listing on the screen and the
    listing of the report are the same lines: the entries sorted by date,
    earliest first (a permutation of the list in which no date is followed
    by an earlier one), line [i] (from 1) being the number in a field of
    three, a point, the date as dd/mm/yyyy in brackets and the path; for a
    date of the calendar with a year of four digits the text in brackets
    is two digits, [/], two digits, [/], four digits, and spells the
    date. *)
Theorem C6_listado_ordenado (self : FiltrarCarpetas)
    (carpetas_filtradas : list carpeta) (c : consola) :
  carpetas_filtradas <> [] ->
  let ordenadas := sorted carpetas_filtradas in
  let lineas := listado carpetas_filtradas in
  let self' := mkFiltrarCarpetas (ruta_busqueda self) carpetas_filtradas in
  Permutation ordenadas carpetas_filtradas
  /\ StronglySorted antes ordenadas
  /\ List.length lineas = List.length carpetas_filtradas
  /\ (forall i x, nth_error ordenadas i = Some x ->
      nth_error lineas i
      = Some (Str.fmt_3d (Z.of_nat i + 1) ++ py ". ["
              ++ Str.dos_digitos (day (fecha_modificacion x)) ++ py "/"
              ++ Str.dos_digitos (month (fecha_modificacion x)) ++ py "/"
              ++ Str.decimal (year (fecha_modificacion x))
              ++ py "] " ++ ruta x))
  /\ (forall x, In x carpetas_filtradas ->
      Date.valid (fecha_modificacion x) ->
      1000 <= year (fecha_modificacion x) <= 9999 ->
      denota E (Date.strftime_dmY (fecha_modificacion x))
        (fecha_modificacion x))
  /\ mostrar_resultados self carpetas_filtradas c
     = (Ok self',
        mkconsola (entrada c)
          (salida c
           ++ [Imprime (10 :: Str.rep 61 50);
               Imprime (py "           RESULTADOS DEL FILTRO");
               Imprime (Str.rep 61 50);
               Imprime (py "Total de carpetas encontradas: "
                        ++ Str.of_int (Z.of_nat (List.length carpetas_filtradas)));
               Imprime [];
               Imprime (py "Carpetas que cumplen el criterio:");
               Imprime (Str.rep 45 50)]
           ++ map Imprime lineas))
  /\ informe E self'
     = [py "RESULTADOS DEL FILTRO DE CARPETAS POR FECHA" ++ [10];
        Str.rep 61 50 ++ [10];
        py "Fecha de generación: " ++ marca_informe E ++ [10];
        py "Ruta de búsqueda: " ++ ruta_busqueda self ++ [10];
        py "Total de carpetas: "
        ++ Str.of_int (Z.of_nat (List.length carpetas_filtradas)) ++ [10; 10]]
       ++ map (fun l => l ++ [10]) lineas.
Proof.
  intros Hne ordenadas lineas self'.
  split; [apply sorted_perm|]. split; [apply sorted_ordenada|].
  split; [apply listado_length|]. split; [|split; [|split]].
  - intros i x Hi. unfold lineas. rewrite (listado_nth _ _ _ Hi).
    unfold linea_resultado, Date.strftime_dmY.
    now rewrite <- !app_assoc.
  - intros x _ V Hy. now apply strftime_denota.
  - unfold mostrar_resultados.
    destruct carpetas_filtradas as [|x l]; [contradiction|].
    cbn [es_vacia]. unfold bind, print, emit, ret. cbn [entrada salida].
    rewrite print_todas_salida. cbn [entrada salida].
    rewrite <- !app_assoc. reflexivity.
  - reflexivity.
Qed.

End Orden.

Lemma C6_listado_ordenado_witness :
  listado [Ejemplo.c; Ejemplo.a; Ejemplo.b]
  = [py "  1. [01/01/2024] /datos/a"; py "  2. [15/06/2024] /datos/b";
     py "  3. [01/01/2025] /datos/c"]
  /\ fst (mostrar_resultados init [Ejemplo.c; Ejemplo.a; Ejemplo.b]
            (mkconsola [] []))
     = Ok (mkFiltrarCarpetas [] [Ejemplo.c; Ejemplo.a; Ejemplo.b]).
Proof.
  split; [reflexivity|].
  destruct (C6_listado_ordenado Ejemplo.E init [Ejemplo.c; Ejemplo.a; Ejemplo.b]
              (mkconsola [] []) ltac:(discriminate)) as (_ & _ & _ & _ & _ & H & _).
  rewrite H. reflexivity.
Defined.

(* ================================================================== *)
(** * Showing and saving *)

Section Guardar.

Variable E : entorno.

(** The screen of a result that is empty: the object is left as it was. *)
Lemma mostrar_resultados_vacio (self : FiltrarCarpetas) (c : consola) :
  mostrar_resultados self [] c
  = (Ok self,
     mkconsola (entrada c)
       (salida c
        ++ [Imprime (10 :: Str.rep 61 50);
            Imprime (py "           RESULTADOS DEL FILTRO");
            Imprime (Str.rep 61 50);
            Imprime (py "Total de carpetas encontradas: 0");
            Imprime [];
            Imprime (py "❌ No se encontraron carpetas que cumplan el criterio especificado.")])).
Proof.
  unfold mostrar_resultados, bind, print, emit, ret. cbn [es_vacia entrada salida].
  now rewrite <- !app_assoc.
Qed.

(** When the object holds no results, the save step asks nothing and
    writes nothing. *)
Lemma guardar_resultados_sin_resultados (self : FiltrarCarpetas)
    (c : consola) :
  carpetas_encontradas self = [] -> guardar_resultados E self c = (Ok tt, c).
Proof. intros H. unfold guardar_resultados. now rewrite H. Qed.

(** So the claim holds for the first query of a session and for every
    query before which no result was shown. *)
Lemma vacio_sin_resultados_anteriores (self : FiltrarCarpetas)
    (c : consola) :
  carpetas_encontradas self = [] ->
  (self' <- mostrar_resultados self [] ;; guardar_resultados E self') c
  = (Ok tt,
     mkconsola (entrada c)
       (salida c
        ++ [Imprime (10 :: Str.rep 61 50);
            Imprime (py "           RESULTADOS DEL FILTRO");
            Imprime (Str.rep 61 50);
            Imprime (py "Total de carpetas encontradas: 0");
            Imprime [];
            Imprime (py "❌ No se encontraron carpetas que cumplan el criterio especificado.")])).
Proof.
  intros H. unfold bind at 1. rewrite mostrar_resultados_vacio.
  now apply guardar_resultados_sin_resultados.
Qed.

(** C1. After a query whose result is empty, with results of an earlier
    query still in the object, the save step does ask, and on a yes it
    writes a report of the earlier results: [mostrar_resultados] returns
    on the empty list before it stores it. *)
Theorem C1_guarda_resultados_anteriores (self : FiltrarCarpetas)
    (linea : str) (resto : list str) (sal : list evento)
    (x : carpeta) (l : list carpeta) :
  carpetas_encontradas self = x :: l ->
  Str.mem (Str.strip (Str.lower linea)) afirmativas = true ->
  open_falla E (nombre_informe E) = None ->
  (self' <- mostrar_resultados self [] ;; guardar_resultados E self')
    (mkconsola (linea :: resto) sal)
  = (Ok tt,
     mkconsola resto
       (sal
        ++ [Imprime (10 :: Str.rep 61 50);
            Imprime (py "           RESULTADOS DEL FILTRO");
            Imprime (Str.rep 61 50);
            Imprime (py "Total de carpetas encontradas: 0");
            Imprime [];
            Imprime (py "❌ No se encontraron carpetas que cumplan el criterio especificado.");
            Imprime (10 :: Str.rep 45 50);
            Pregunta (py "¿Desea guardar estos resultados en un archivo? (s/n): ");
            Escribe (nombre_informe E) (informe E self);
            Imprime (py "✓ Resultados guardados en: " ++ nombre_informe E)])).
Proof.
  intros Hx Hs Ho. unfold bind at 1. rewrite mostrar_resultados_vacio.
  unfold guardar_resultados. rewrite Hx. cbn [es_vacia].
  unfold bind, print, emit, input. cbn [entrada salida].
  rewrite Hs. cbv zeta. rewrite Ho.
  cbn [entrada salida]. now rewrite <- !app_assoc.
Qed.

End Guardar.

Lemma C1_guarda_resultados_anteriores_witness :
  let self := mkFiltrarCarpetas (py "/datos") [Ejemplo.b; Ejemplo.c] in
  exists sal,
    (self' <- mostrar_resultados self [] ;; guardar_resultados Ejemplo.E self')
      (mkconsola [py "s"] [])
    = (Ok tt, mkconsola [] sal)
    /\ In (Escribe (nombre_informe Ejemplo.E) (informe Ejemplo.E self)) sal.
Proof.
  intros self. eexists. split.
  - apply (C1_guarda_resultados_anteriores Ejemplo.E self (py "s") [] []
             Ejemplo.b [Ejemplo.c]); reflexivity.
  - cbn [app In]. do 8 right. left. reflexivity.
Defined.

(** A session of two queries on the example machine.  The first asks for
    the directories of [/datos] modified after 01/01/2024 and saves the two
    that are found; the second asks for those modified on 01/01/1999, finds
    none, and the save step asks again and writes the two of the first
    query. *)
Example sesion_de_dos_consultas :
  let lineas :=
    [py "/datos"; py "n"; py "1"; py "01/01/2024"; py "s"; py "s";
     py "/datos"; py "n"; py "3"; py "01/01/1999"; py "s"; py "n"] in
  let self := mkFiltrarCarpetas (py "/datos") [Ejemplo.b; Ejemplo.c] in
  let '(r, c) := ejecutar Ejemplo.E init (mkconsola lineas []) in
  r = Ok self
  /\ entrada c = []
  /\ filter es_dialogo (salida c)
     = [Pregunta (py "Ingrese la ruta donde buscar (Enter para directorio actual): ");
        Pregunta (py "¿Incluir subcarpetas en la búsqueda? (s/n) [s]: ");
        Pregunta (py "Seleccione una opción (1-5): ");
        Pregunta (py "Ingrese la fecha de referencia [dd/mm/aaaa]: ");
        Pregunta (py "¿Desea guardar estos resultados en un archivo? (s/n): ");
        Escribe (nombre_informe Ejemplo.E) (informe Ejemplo.E self);
        Pregunta (py "¿Desea realizar otra búsqueda? (s/n): ");
        Pregunta (py "Ingrese la ruta donde buscar (Enter para directorio actual): ");
        Pregunta (py "¿Incluir subcarpetas en la búsqueda? (s/n) [s]: ");
        Pregunta (py "Seleccione una opción (1-5): ");
        Pregunta (py "Ingrese la fecha específica [dd/mm/aaaa]: ");
        Pregunta (py "¿Desea guardar estos resultados en un archivo? (s/n): ");
        Escribe (nombre_informe Ejemplo.E) (informe Ejemplo.E self);
        Pregunta (py "¿Desea realizar otra búsqueda? (s/n): ")].
Proof. vm_compute. repeat split. Qed.

(* ================================================================== *)
(** * Errors of the traversal *)

Section Permisos.

Variable E : entorno.

(** The loops only add to the list they are given. *)
Lemma recorrer_scandir_conserva (it : iter DirEntry) :
  forall carpetas, exists nuevas,
    fst (recorrer_scandir E it carpetas) = carpetas ++ nuevas.
Proof.
  induction it as [|e|entry resto IH]; intros carpetas; cbn [recorrer_scandir].
  - exists []. now rewrite app_nil_r.
  - exists []. now rewrite app_nil_r.
  - destruct (entry_is_dir entry) as [[|]|e];
      [|apply IH|exists []; now rewrite app_nil_r].
    destruct (obtener_fecha_modificacion E (entry_path entry)) as [[f|]|e];
      [|apply IH|exists []; now rewrite app_nil_r].
    destruct (IH (carpetas ++ [mkcarpeta (entry_path entry) (entry_name entry) f]))
      as [nuevas Hn].
    rewrite Hn. rewrite <- app_assoc. eauto.
Qed.

(** C2, as the code has it.  When the traversal raises a permission error,
    the message that names the root path is printed and the method returns
    the entries collected until then; when the error is raised on opening
    the root, none has been collected and the list returned is empty. *)
Theorem C2_error_de_permisos (self : FiltrarCarpetas)
    (incluir_subcarpetas : bool) (c : consola) (parciales : list carpeta) :
  buscar_intento E (ruta_busqueda self) incluir_subcarpetas
  = (parciales, Some PermissionError) ->
  buscar_carpetas E self incluir_subcarpetas c
  = (Ok parciales,
     mkconsola (entrada c)
       (salida c
        ++ [Imprime (py "❌ Sin permisos para acceder a: " ++ ruta_busqueda self)]))
  /\ (incluir_subcarpetas = false ->
      os_scandir (fs E) (ruta_busqueda self) = Raise PermissionError ->
      parciales = []).
Proof.
  intros H. split.
  - unfold buscar_carpetas. rewrite H. reflexivity.
  - intros -> Ho. unfold buscar_intento in H. rewrite Ho in H. congruence.
Qed.

End Permisos.

Lemma C2_error_de_permisos_witness :
  let self := mkFiltrarCarpetas (py "/datos") [] in
  fst (buscar_carpetas (Ejemplo.con_sistema Ejemplo.sistema_cerrado) self false
         (mkconsola [] []))
  = Ok [].
Proof.
  intros self.
  destruct (C2_error_de_permisos (Ejemplo.con_sistema Ejemplo.sistema_cerrado)
              self false (mkconsola [] []) [] eq_refl) as [H _].
  rewrite H. reflexivity.
Defined.

(** C2, as the specification has it, fails: when the listing of the root
    gives the directory [a] and then fails for lack of permission, the
    method returns [a], not the empty list. *)
Lemma C2_contraejemplo :
  let E := Ejemplo.con_sistema Ejemplo.sistema_cortado in
  let self := mkFiltrarCarpetas (py "/datos") [] in
  buscar_intento E (py "/datos") false = ([Ejemplo.a], Some PermissionError)
  /\ buscar_carpetas E self false (mkconsola [] [])
     = (Ok [Ejemplo.a],
        mkconsola []
          [Imprime (py "❌ Sin permisos para acceder a: /datos")])
  /\ fst (buscar_carpetas E self false (mkconsola [] [])) <> Ok [].
Proof. intros E self. repeat split. discriminate. Qed.

(* ================================================================== *)
(** * The search in the directory alone *)

Section Rutas.

Lemma nombre_valido_inv (n : str) :
  Arbol.nombre_valido n = true -> n <> [] /\ ~ In 47 n.
Proof.
  unfold Arbol.nombre_valido. intros H. apply andb_prop in H.
  destruct H as [H1 H2]. split.
  - destruct n; [discriminate|discriminate].
  - intros Hin. rewrite forallb_forall in H2. specialize (H2 _ Hin).
    discriminate.
Qed.

Lemma nombre_valido_sin_barra_inicial (n : str) :
  Arbol.nombre_valido n = true -> empieza_con_barra n = false.
Proof.
  intros H. apply nombre_valido_inv in H. destruct H as [_ H].
  destruct n as [|c n]; [reflexivity|]. cbn.
  destruct (Z.eqb_spec c 47) as [->|]; [|reflexivity].
  exfalso. apply H. now left.
Qed.

(** A name is appended to the path with its separator. *)
Lemma os_path_join_nombre (p n : str) :
  Arbol.nombre_valido n = true -> os_path_join p n = Arbol.con_barra p ++ n.
Proof.
  intros H. unfold os_path_join, Arbol.con_barra.
  rewrite (nombre_valido_sin_barra_inicial n H).
  destruct (es_vacia p || empieza_con_barra (rev p)); [reflexivity|].
  now rewrite <- app_assoc.
Qed.

Lemma con_barra_length (p : str) :
  (List.length p <= List.length (Arbol.con_barra p))%nat.
Proof.
  unfold Arbol.con_barra. destruct (_ || _); [lia|].
  rewrite length_app. lia.
Qed.

Lemma os_path_join_distinta (p n : str) :
  Arbol.nombre_valido n = true -> os_path_join p n <> p.
Proof.
  intros H Heq. rewrite (os_path_join_nombre p n H) in Heq.
  apply (f_equal (@List.length Z)) in Heq. rewrite length_app in Heq.
  pose proof (con_barra_length p).
  apply nombre_valido_inv in H. destruct H as [H _].
  destruct n; [contradiction|]. cbn in Heq. lia.
Qed.

(** The path of an entry does not end with the separator. *)
Lemma os_path_join_sin_barra_final (p n : str) :
  Arbol.nombre_valido n = true ->
  Arbol.con_barra (os_path_join p n) = os_path_join p n ++ [47].
Proof.
  intros H. rewrite (os_path_join_nombre p n H).
  apply nombre_valido_inv in H. destruct H as [Hne Hsin].
  set (b := Arbol.con_barra p). unfold Arbol.con_barra.
  assert (Hv : es_vacia (b ++ n) = false).
  { destruct n; [contradiction|]. now destruct b. }
  rewrite Hv, rev_app_distr.
  destruct (rev n) as [|c r] eqn:Hr.
  - apply (f_equal (@rev Z)) in Hr. rewrite rev_involutive in Hr. contradiction.
  - cbn. destruct (Z.eqb_spec c 47) as [->|]; [|reflexivity].
    exfalso. apply Hsin. apply in_rev. rewrite Hr. now left.
Qed.

Lemma quitar_prefijo_app (pre s : str) :
  Arbol.quitar_prefijo pre (pre ++ s) = Some s.
Proof.
  induction pre as [|c pre IH]; cbn; [reflexivity|]. now rewrite Z.eqb_refl.
Qed.

Lemma partir_desde_nombre (n : str) :
  forall actual, ~ In 47 n -> Arbol.partir_desde actual n = [actual ++ n].
Proof.
  induction n as [|c n IH]; intros actual H; cbn.
  - now rewrite app_nil_r.
  - destruct (Z.eqb_spec c 47) as [->|]; [exfalso; apply H; now left|].
    rewrite IH by (intros Hin; apply H; now right).
    now rewrite <- app_assoc.
Qed.

Lemma partir_nombre (n : str) :
  Arbol.nombre_valido n = true -> Arbol.partir n = [n].
Proof.
  intros H. apply nombre_valido_inv in H. destruct H as [Hne Hsin].
  unfold Arbol.partir. destruct n as [|c n]; [contradiction|].
  now rewrite partir_desde_nombre.
Qed.

Lemma relativa_raiz (raiz : str) : Arbol.relativa raiz raiz = Some [].
Proof.
  unfold Arbol.relativa.
  now rewrite (proj2 (Str_eqb_eq raiz raiz) eq_refl).
Qed.

Lemma relativa_hijo (raiz n : str) :
  Arbol.nombre_valido n = true ->
  Arbol.relativa raiz (os_path_join raiz n) = Some [n].
Proof.
  intros H. unfold Arbol.relativa.
  destruct (Str.eqb (os_path_join raiz n) raiz) eqn:Q.
  - apply Str_eqb_eq in Q. now apply os_path_join_distinta in Q.
  - rewrite (os_path_join_nombre raiz n H), quitar_prefijo_app. cbn.
    now rewrite partir_nombre.
Qed.

Lemma sin_repetidos_inv (x : str) (l : list str) :
  Arbol.sin_repetidos (x :: l) = true ->
  ~ In x l /\ Arbol.sin_repetidos l = true.
Proof.
  cbn. intros H. apply andb_prop in H. destruct H as [H1 H2].
  split; [|assumption]. intros Hin.
  apply negb_true_iff in H1. unfold Str.mem in H1.
  assert (existsb (Str.eqb x) l = true)
    by (apply existsb_exists; exists x; split; [assumption|now apply Str_eqb_eq]).
  congruence.
Qed.

Lemma buscar_hijo_In (hijos : list (str * nodo)) (n : str) (h : nodo) :
  Arbol.sin_repetidos (map fst hijos) = true -> In (n, h) hijos ->
  Arbol.buscar_hijo n hijos = Some h.
Proof.
  induction hijos as [|[m k] hijos IH]; intros Hs Hin; [contradiction|].
  cbn [map fst] in Hs. apply sin_repetidos_inv in Hs. destruct Hs as [Hx Hs].
  cbn [Arbol.buscar_hijo]. destruct Hin as [[= -> ->]|Hin].
  - now rewrite (proj2 (Str_eqb_eq n n) eq_refl).
  - destruct (Str.eqb n m) eqn:Q; [|now apply IH].
    apply Str_eqb_eq in Q. subst m. exfalso. apply Hx.
    apply (in_map fst) in Hin. exact Hin.
Qed.

Lemma bien_formado_inv (m : option date) (hijos : list (str * nodo)) :
  Arbol.bien_formado (Directorio m hijos) = true ->
  Arbol.sin_repetidos (map fst hijos) = true
  /\ forall n h, In (n, h) hijos ->
       Arbol.nombre_valido n = true /\ Arbol.bien_formado h = true.
Proof.
  cbn [Arbol.bien_formado]. intros H.
  apply andb_prop in H. destruct H as [H H3].
  apply andb_prop in H. destruct H as [H1 H2].
  split; [assumption|]. intros n h Hin.
  rewrite forallb_forall in H1, H3.
  split; [apply (H1 _ Hin)|apply (H3 _ Hin)].
Qed.

(** Every path below a node is the path of the node, the separator, and
    something more. *)
Lemma bajo_prefijo (p : str) (t : nodo) (q : str) :
  bajo p t q -> Arbol.bien_formado t = true ->
  exists r, r <> [] /\ q = Arbol.con_barra p ++ r.
Proof.
  induction 1 as [p m hijos n h Hin|p m hijos n h q Hin Hb IH]; intros Hbf;
    apply bien_formado_inv in Hbf; destruct Hbf as [_ Hbf];
    destruct (Hbf _ _ Hin) as [Hn Hh].
  - exists n. split; [now apply nombre_valido_inv|].
    now apply os_path_join_nombre.
  - destruct (IH Hh) as (r & Hr & ->).
    rewrite (os_path_join_sin_barra_final p n Hn), (os_path_join_nombre p n Hn).
    exists (n ++ [47] ++ r). split; [|now rewrite <- !app_assoc].
    apply nombre_valido_inv in Hn. destruct Hn as [Hne _].
    destruct n; [contradiction|discriminate].
Qed.

End Rutas.

Section Superficial.

Variable E : entorno.
Variable raiz : str.
Variable m : option date.
Variable hijos : list (str * nodo).

Hypothesis bien : Arbol.bien_formado (Directorio m hijos) = true.
Hypothesis sistema_del_arbol :
  fs E = Arbol.sistema_de raiz (Directorio m hijos).

Lemma nodo_en_hijo (n : str) (h : nodo) :
  In (n, h) hijos ->
  Arbol.nodo_en raiz (Directorio m hijos) (os_path_join raiz n) = Some h.
Proof.
  intros Hin. destruct (bien_formado_inv _ _ bien) as [Hs Hv].
  destruct (Hv _ _ Hin) as [Hn _].
  unfold Arbol.nodo_en. rewrite (relativa_hijo raiz n Hn).
  cbn [Arbol.resolver]. now rewrite (buscar_hijo_In hijos n h Hs Hin).
Qed.

Lemma obtener_fecha_hijo (n : str) (h : nodo) :
  In (n, h) hijos ->
  obtener_fecha_modificacion E (os_path_join raiz n) = Ok (Arbol.mtime_de h).
Proof.
  intros Hin. unfold obtener_fecha_modificacion.
  rewrite sistema_del_arbol. cbn [fecha_mtime Arbol.sistema_de].
  rewrite (nodo_en_hijo n h Hin). now destruct (Arbol.mtime_de h).
Qed.

Lemma recorrer_scandir_hijos (sub : list (str * nodo)) :
  forall carpetas,
  (forall nh, In nh sub -> In nh hijos) ->
  recorrer_scandir E (Arbol.entradas raiz sub) carpetas
  = (carpetas ++ hijos_directos raiz sub, None).
Proof.
  induction sub as [|[n h] sub IH]; intros carpetas Hsub.
  - cbn. now rewrite app_nil_r.
  - cbn [Arbol.entradas recorrer_scandir entry_is_dir entry_path entry_name].
    assert (Hin : In (n, h) hijos) by (apply Hsub; now left).
    assert (Hsub' : forall nh, In nh sub -> In nh hijos)
      by (intros nh Hnh; apply Hsub; now right).
    unfold hijos_directos. cbn [flat_map fst snd]. fold (hijos_directos raiz sub).
    destruct h as [mt|mt sub']; cbn [Arbol.es_dir].
    + now apply IH.
    + rewrite (obtener_fecha_hijo n _ Hin). cbn [Arbol.mtime_de].
      destruct mt as [d|]; [|now apply IH].
      rewrite IH by assumption. now rewrite <- app_assoc.
Qed.

(** C7. On a filesystem tree, the search without subdirectories returns,
    in the order of the listing, one entry for each directory directly
    under the root whose modification time can be read, and nothing else:
    no file, no directory whose time cannot be read, and no path of a node
    below one of those directories. *)
Theorem C7_solo_hijos_directos (self : FiltrarCarpetas) (c : consola) :
  ruta_busqueda self = raiz ->
  let r := hijos_directos raiz hijos in
  buscar_carpetas E self false c = (Ok r, c)
  /\ (forall x, In x r <->
      exists d sub,
        In (nombre x, Directorio (Some d) sub) hijos
        /\ x = mkcarpeta (os_path_join raiz (nombre x)) (nombre x) d)
  /\ (forall n h q, In (n, h) hijos -> bajo (os_path_join raiz n) h q ->
      ~ In q (map ruta r)).
Proof.
  intros Hr r. destruct (bien_formado_inv _ _ bien) as [Hs Hv].
  assert (Hin : forall x, In x r <->
            exists d sub,
              In (nombre x, Directorio (Some d) sub) hijos
              /\ x = mkcarpeta (os_path_join raiz (nombre x)) (nombre x) d).
  { intros x. unfold r, hijos_directos. rewrite in_flat_map. split.
    - intros ([n h] & Hnh & Hx). cbn [fst snd] in Hx.
      destruct h as [?|[d|] sub]; try contradiction.
      destruct Hx as [<-|[]]. cbn [nombre]. eauto.
    - intros (d & sub & Hnh & ->). eexists. split; [exact Hnh|].
      cbn [fst snd nombre]. now left. }
  split; [|split; [exact Hin|]].
  - unfold buscar_carpetas, buscar_intento. rewrite Hr, sistema_del_arbol.
    cbn [os_scandir Arbol.sistema_de].
    unfold Arbol.nodo_en. rewrite relativa_raiz. cbn [Arbol.resolver].
    rewrite (recorrer_scandir_hijos hijos [] (fun nh H => H)). reflexivity.
  - intros n h q Hnh Hb Hq. apply in_map_iff in Hq.
    destruct Hq as (x & Hxq & Hx). subst q. apply Hin in Hx.
    destruct Hx as (d & sub & Hx & Hxe). rewrite Hxe in Hb.
    set (nx := nombre x) in *. clearbody nx. cbn [ruta] in Hb.
    destruct (Hv _ _ Hnh) as [Hn Hh]. destruct (Hv _ _ Hx) as [Hnx _].
    destruct (bajo_prefijo _ _ _ Hb Hh) as (resto & _ & Hq).
    rewrite (os_path_join_sin_barra_final raiz n Hn) in Hq.
    rewrite (os_path_join_nombre raiz n Hn) in Hq.
    rewrite (os_path_join_nombre raiz nx Hnx) in Hq.
    rewrite <- !app_assoc in Hq. apply app_inv_head in Hq.
    apply nombre_valido_inv in Hnx. destruct Hnx as [_ Hsin].
    apply Hsin. rewrite Hq. apply in_or_app. right. now left.
Qed.

End Superficial.

Lemma C7_solo_hijos_directos_witness :
  let self := mkFiltrarCarpetas (py "/datos") [] in
  buscar_carpetas Ejemplo.E self false (mkconsola [] [])
  = (Ok [Ejemplo.a; Ejemplo.b; Ejemplo.c], mkconsola [] [])
  /\ ~ In (py "/datos/a/x") (map ruta [Ejemplo.a; Ejemplo.b; Ejemplo.c]).
Proof.
  intros self.
  destruct (C7_solo_hijos_directos Ejemplo.E (py "/datos")
              (Some (mkdate 2020 1 1))
              [(py "a", Directorio (Some (mkdate 2024 1 1))
                          [(py "x", Directorio (Some (mkdate 2024 5 5)) [])]);
               (py "notas.txt", Archivo (Some (mkdate 2024 1 2)));
               (py "b", Directorio (Some (mkdate 2024 6 15)) []);
               (py "c", Directorio (Some (mkdate 2025 1 1)) []);
               (py "z", Directorio None [])]
              eq_refl eq_refl self (mkconsola [] []) eq_refl) as (H1 & _ & H3).
  split; [exact H1|].
  intros Hc.
  apply (H3 (py "a")
            (Directorio (Some (mkdate 2024 1 1))
               [(py "x", Directorio (Some (mkdate 2024 5 5)) [])])
            (os_path_join (os_path_join (py "/datos") (py "a")) (py "x"))).
  - now left.
  - apply (bajo_hijo _ _ _ (py "x") (Directorio (Some (mkdate 2024 5 5)) [])).
    now left.
  - exact Hc.
Defined.

(** On the same tree the recursive search also finds the directory [x]
    under [a], after the directories of the root. *)
Example busqueda_recursiva :
  buscar_intento Ejemplo.E (py "/datos") true
  = ([Ejemplo.a; Ejemplo.b; Ejemplo.c;
      mkcarpeta (py "/datos/a/x") (py "x") (mkdate 2024 5 5)],
     None).
Proof. reflexivity. Qed.

(* ================================================================== *)
(** * The decimal rendering, read back *)

Lemma numeral_app (ds1 ds2 : str) :
  forall a,
  Ejemplo.numeral a (ds1 ++ ds2)
  = match Ejemplo.numeral a ds1 with
    | Some v => Ejemplo.numeral v ds2
    | None => None
    end.
Proof.
  induction ds1 as [|c ds1 IH]; intros a; cbn [app Ejemplo.numeral];
    [reflexivity|].
  destruct ((48 <=? c) && (c <=? 57)); [apply IH|reflexivity].
Qed.

Lemma numeral_digito (a d : Z) :
  0 <= d <= 9 -> Ejemplo.numeral a [48 + d] = Some (a * 10 + d).
Proof.
  intros Hd. cbn [Ejemplo.numeral].
  replace ((48 <=? 48 + d) && (48 + d <=? 57)) with true
    by (symmetry; apply andb_true_intro; split; apply Z.leb_le; lia).
  f_equal. lia.
Qed.

Lemma decimal_aux_numeral (fuel : nat) :
  forall n acc, 0 <= n < 10 ^ Z.of_nat fuel ->
  exists ds,
    Str.decimal_aux fuel n acc = ds ++ acc
    /\ forall a,
         Ejemplo.numeral a ds = Some (a * 10 ^ Z.of_nat (List.length ds) + n).
Proof.
  induction fuel as [|fuel IH]; intros n acc Hn.
  - exists []. split; [reflexivity|]. intros a. cbn in *. f_equal. lia.
  - cbn [Str.decimal_aux]. rewrite Nat2Z.inj_succ, Z.pow_succ_r in Hn by lia.
    destruct (Z.ltb_spec n 10) as [Hlt|Hge].
    + exists [48 + n mod 10]. split; [reflexivity|]. intros a.
      rewrite Z.mod_small by lia. rewrite numeral_digito by lia.
      f_equal.
    + destruct (IH (n / 10) ((48 + n mod 10) :: acc)) as (ds & Hds & Hnum).
      { split; [apply Z.div_pos; lia|apply Z.div_lt_upper_bound; lia]. }
      exists (ds ++ [48 + n mod 10]). split.
      * rewrite Hds. now rewrite <- app_assoc.
      * intros a. rewrite numeral_app, Hnum.
        rewrite numeral_digito
          by (pose proof (Z.mod_pos_bound n 10 ltac:(lia)); lia).
        rewrite length_app, Nat.add_comm. cbn [List.length Nat.add].
        rewrite Nat2Z.inj_succ, Z.pow_succ_r by lia.
        f_equal. pose proof (Z.div_mod n 10 ltac:(lia)). lia.
Qed.

(** [decimal] writes every natural number, and the numeral reads back. *)
Lemma decimal_numeral (n : Z) :
  0 <= n -> Ejemplo.numeral 0 (Str.decimal n) = Some n.
Proof.
  intros Hn. unfold Str.decimal.
  destruct (decimal_aux_numeral (S (Z.to_nat (Z.log2 n))) n []) as (ds & Hds & Hnum).
  - split; [assumption|].
    rewrite Nat2Z.inj_succ, Z2Nat.id by apply Z.log2_nonneg.
    destruct (Z.eq_dec n 0) as [->|Hne]; [reflexivity|].
    destruct (Z.log2_spec n ltac:(lia)) as [_ Hlt].
    eapply Z.lt_le_trans; [exact Hlt|].
    apply Z.pow_le_mono_l. lia.
  - rewrite Hds, app_nil_r, Hnum. f_equal.
Qed.

Example fmt_3d_ejemplos :
  Str.fmt_3d 1 = py "  1" /\ Str.fmt_3d 12 = py " 12"
  /\ Str.fmt_3d 123 = py "123" /\ Str.fmt_3d 1234 = py "1234".
Proof. repeat split. Qed.

(* ================================================================== *)
(** * The rounds of the session *)

Section Vueltas.

Lemma no_devuelve_ret {A : Type} (a : A) : no_devuelve (ret a).
Proof. intros c r c' [= <- <-]. lia. Qed.

Lemma no_devuelve_raise {A : Type} (e : exn) : no_devuelve (@raise A e).
Proof. intros c r c' [= <- <-]. lia. Qed.

Lemma no_devuelve_emit (e : evento) : no_devuelve (emit e).
Proof. intros c r c' [= <- <-]. cbn. lia. Qed.

Lemma no_devuelve_print (s : str) : no_devuelve (print s).
Proof. apply no_devuelve_emit. Qed.

Lemma lee_input (prompt : str) : lee (input prompt).
Proof.
  split.
  - intros c r c'. unfold input. destruct (entrada c); intros [= <- <-]; cbn; lia.
  - intros c a c'. unfold input. destruct (entrada c); intros [= <- <-]; cbn; lia.
Qed.

Lemma lee_reintentar {A : Type} (prompt : str)
    (probar : str -> A + list evento) :
  lee (reintentar prompt probar).
Proof.
  split.
  - intros c r c' H. now apply reintentar_desde_entrada in H.
  - intros c a c' H. apply reintentar_desde_entrada in H.
    destruct H as [_ H]. now apply (H a).
Qed.

Lemma no_devuelve_bind {A B : Type} (m : M A) (k : A -> M B) :
  no_devuelve m -> (forall a, no_devuelve (k a)) -> no_devuelve (bind m k).
Proof.
  intros Hm Hk c r c' H. unfold bind in H.
  destruct (m c) as [[a|e] c1] eqn:Hmc.
  - specialize (Hm _ _ _ Hmc). specialize (Hk a _ _ _ H). lia.
  - injection H as <- <-. exact (Hm _ _ _ Hmc).
Qed.

Lemma lee_bind {A B : Type} (m : M A) (k : A -> M B) :
  lee m -> (forall a, no_devuelve (k a)) -> lee (bind m k).
Proof.
  intros [Hm Hl] Hk. split; [now apply no_devuelve_bind|].
  intros c b c' H. unfold bind in H.
  destruct (m c) as [[a|e] c1] eqn:Hmc; [|discriminate].
  specialize (Hl _ _ _ Hmc). specialize (Hk a _ _ _ H). lia.
Qed.

Lemma lee_bind_r {A B : Type} (m : M A) (k : A -> M B) :
  no_devuelve m -> (forall a, lee (k a)) -> lee (bind m k).
Proof.
  intros Hm Hk. split.
  - apply no_devuelve_bind; [assumption|]. intros a. apply Hk.
  - intros c b c' H. unfold bind in H.
    destruct (m c) as [[a|e] c1] eqn:Hmc; [|discriminate].
    specialize (Hm _ _ _ Hmc). destruct (Hk a) as [_ Hl].
    specialize (Hl _ _ _ H). lia.
Qed.

Lemma lee_no_devuelve {A : Type} (m : M A) : lee m -> no_devuelve m.
Proof. now intros [H _]. Qed.

Lemma no_devuelve_print_todas (ls : list str) : no_devuelve (print_todas ls).
Proof.
  intros c r c' H. rewrite print_todas_salida in H. injection H as <- <-.
  cbn. lia.
Qed.

Variable E : entorno.

Create HintDb vueltas.

#[local] Hint Resolve no_devuelve_ret no_devuelve_raise no_devuelve_emit
  no_devuelve_print lee_input lee_reintentar lee_no_devuelve
  no_devuelve_print_todas : vueltas.

Ltac paso :=
  repeat first
    [ apply no_devuelve_bind; [|intros ?]
    | solve [auto with vueltas]
    | match goal with
      | |- no_devuelve (if ?b then _ else _) => destruct b
      | |- no_devuelve (match ?x with _ => _ end) => destruct x
      end ].

Lemma no_devuelve_buscar_carpetas (self : FiltrarCarpetas) (b : bool) :
  no_devuelve (buscar_carpetas E self b).
Proof. unfold buscar_carpetas. paso. Qed.

Lemma no_devuelve_filtrar (carpetas : list carpeta) (opcion : Z) :
  no_devuelve (filtrar_por_opcion E carpetas opcion).
Proof.
  unfold filtrar_por_opcion, solicitar_fecha, solicitar_dias. paso.
Qed.

Lemma no_devuelve_mostrar (self : FiltrarCarpetas) (l : list carpeta) :
  no_devuelve (mostrar_resultados self l).
Proof. unfold mostrar_resultados. paso. Qed.

Lemma no_devuelve_guardar (self : FiltrarCarpetas) :
  no_devuelve (guardar_resultados E self).
Proof. unfold guardar_resultados. paso. Qed.

Lemma no_devuelve_menu : no_devuelve (mostrar_menu_opciones E).
Proof. unfold mostrar_menu_opciones. paso. Qed.

Lemma no_devuelve_preguntar : no_devuelve preguntar_incluir_subcarpetas.
Proof. unfold preguntar_incluir_subcarpetas. paso. Qed.

Lemma lee_solicitar_ruta (self : FiltrarCarpetas) :
  lee (solicitar_ruta E self).
Proof.
  unfold solicitar_ruta. apply lee_bind; [apply lee_reintentar|].
  intros r. paso.
Qed.

#[local] Hint Resolve no_devuelve_buscar_carpetas no_devuelve_filtrar
  no_devuelve_mostrar no_devuelve_guardar no_devuelve_menu
  no_devuelve_preguntar : vueltas.

(** Every round that ends has read a line. *)
Lemma lee_vuelta (self : FiltrarCarpetas) : lee (vuelta E self).
Proof.
  unfold vuelta, limpiar_pantalla, mostrar_titulo.
  apply lee_bind_r; [paso|intros _].
  apply lee_bind_r; [paso|intros _].
  apply lee_bind; [apply lee_solicitar_ruta|]. intros self'. paso.
Qed.

(** The bound on the rounds is never reached: with more rounds allowed
    than lines left, the session is the same whatever the bound. *)
Lemma ejecutar_bucle_vueltas (n : nat) :
  forall (k : nat) (self : FiltrarCarpetas) (c : consola),
  (List.length (entrada c) < n)%nat -> (List.length (entrada c) < k)%nat ->
  ejecutar_bucle E n self c = ejecutar_bucle E k self c.
Proof.
  induction n as [|n IH]; intros k self c Hn Hk; [lia|].
  destruct k as [|k]; [lia|]. cbn [ejecutar_bucle]. unfold bind.
  destruct (vuelta E self c) as [[[self' seguir]|e] c'] eqn:V; [|reflexivity].
  destruct (lee_vuelta self) as [_ Hl]. specialize (Hl _ _ _ V).
  cbn [fst snd]. destruct seguir; [|reflexivity].
  apply IH; lia.
Qed.

End Vueltas.


(* ================================================================== *)
(** * More on the prompts *)

(** A prompt loop, whole: either a line was accepted, the lines before it
    were rejected and each left its prompt and messages; or every line was
    rejected and the input ended. *)
Lemma reintentar_desde_completo {A : Type} (prompt : str)
    (probar : str -> A + list evento) (lineas : list str) :
  forall sal,
  match reintentar_desde prompt probar lineas sal with
  | (Ok a, c') =>
      exists malas buena,
        lineas = malas ++ buena :: entrada c'
        /\ Forall (rechazada probar) malas /\ probar buena = inl a
        /\ salida c'
           = sal ++ flat_map (rechazo prompt probar) malas ++ [Pregunta prompt]
  | (Raise e, c') =>
      e = EOFError /\ entrada c' = [] /\ Forall (rechazada probar) lineas
      /\ salida c'
         = sal ++ flat_map (rechazo prompt probar) lineas ++ [Pregunta prompt]
  end.
Proof.
  induction lineas as [|l lineas IH]; intros sal; cbn [reintentar_desde].
  - cbn [entrada salida flat_map app]. auto.
  - destruct (probar l) as [a|m] eqn:Hl.
    + exists [], l. cbn [entrada salida flat_map app]. auto.
    + specialize (IH ((sal ++ [Pregunta prompt]) ++ m)).
      destruct (reintentar_desde prompt probar lineas _) as [[a|e] c'].
      * destruct IH as (malas & buena & -> & Hm & Hb & Hs).
        exists (l :: malas), buena. repeat split; auto.
        -- constructor; [now exists m|assumption].
        -- rewrite Hs. cbn [flat_map]. unfold rechazo at 2. rewrite Hl.
           cbn [app]. now rewrite <- !app_assoc.
      * destruct IH as (-> & He & Hf & Hs). repeat split; auto.
        -- constructor; [now exists m|assumption].
        -- rewrite Hs. cbn [flat_map]. unfold rechazo at 2. rewrite Hl.
           cbn [app]. now rewrite <- !app_assoc.
Qed.

Section MasPrompts.

Variable E : entorno.


Lemma validar_fecha_valida (s : str) (f : date) :
  validar_fecha E s = Some f -> Date.valid f.
Proof.
  intros H. apply validar_fecha_spec in H.
  destruct H as [D|(s0 & _ & D)];
    destruct D as (? & ? & ? & ? & ? & ? & ? & ? & ? & ? & ? & ? & ? & ? & ? & ?
                   & _ & _ & _ & _ & _ & _ & _ & _ & _ & _ & V); exact V.
Qed.

Lemma rechazada_fecha (l : str) :
  rechazada (probar_fecha E) l <-> validar_fecha E (Str.strip l) = None.
Proof.
  unfold rechazada, probar_fecha.
  destruct (validar_fecha E (Str.strip l)); split; intros H;
    try discriminate; eauto.
  destruct H; discriminate.
Qed.

Lemma rechazo_fecha (prompt l : str) :
  validar_fecha E (Str.strip l) = None ->
  rechazo prompt (probar_fecha E) l
  = [Pregunta prompt;
     Imprime (py "❌ Formato de fecha inválido. Use dd/mm/aaaa (ej: 15/03/2024)");
     Imprime []].
Proof. intros H. unfold rechazo, probar_fecha. now rewrite H. Qed.




End MasPrompts.


(* ================================================================== *)
(** * More on the traversal *)

Section MasBusqueda.

Variable E : entorno.

Lemma obtener_fecha_Some (p : str) (d : date) :
  obtener_fecha_modificacion E p = Ok (Some d)
  <-> fecha_mtime (fs E) p = Ok d.
Proof.
  unfold obtener_fecha_modificacion.
  destruct (fecha_mtime (fs E) p) as [f|e].
  - split; congruence.
  - split; [|discriminate]. destruct e; cbn; discriminate.
Qed.

Lemma recorrer_scandir_entradas (it : iter DirEntry) :
  forall carpetas,
  exists nuevas,
    fst (recorrer_scandir E it carpetas) = carpetas ++ nuevas
    /\ Forall (de_entrada E it) nuevas
    /\ (snd (recorrer_scandir E it carpetas) = None ->
        forall entry d,
          In entry (elementos it) -> entry_is_dir entry = Ok true ->
          fecha_mtime (fs E) (entry_path entry) = Ok d ->
          In (mkcarpeta (entry_path entry) (entry_name entry) d) nuevas).
Proof.
  induction it as [|e|entry resto IH]; intros carpetas;
    cbn [recorrer_scandir elementos].
  - exists []. rewrite app_nil_r. repeat split; [constructor|].
    intros _ ? ? [].
  - exists []. rewrite app_nil_r. repeat split; [constructor|]. discriminate.
  - assert (Hmono : forall l, Forall (de_entrada E resto) l ->
                      Forall (de_entrada E (Da entry resto)) l).
    { intros l. apply Forall_impl. intros x (en & Hin & H).
      exists en. split; [now right|exact H]. }
    destruct (entry_is_dir entry) as [[|]|e] eqn:Hd.
    + destruct (obtener_fecha_modificacion E (entry_path entry))
        as [[f|]|e] eqn:Ho.
      * destruct (IH (carpetas
                      ++ [mkcarpeta (entry_path entry) (entry_name entry) f]))
          as (nuevas & Hn & Hf & Hc).
        exists (mkcarpeta (entry_path entry) (entry_name entry) f :: nuevas).
        split; [rewrite Hn; now rewrite <- app_assoc|]. split.
        -- constructor; [|now apply Hmono].
           exists entry. cbn [elementos In fecha_modificacion ruta nombre].
           apply obtener_fecha_Some in Ho. auto.
        -- intros He en d [<-|Hin] Hdir Hm.
           ++ apply obtener_fecha_Some in Ho. left. congruence.
           ++ right. now apply Hc.
      * destruct (IH carpetas) as (nuevas & Hn & Hf & Hc).
        exists nuevas. split; [exact Hn|]. split; [now apply Hmono|].
        intros He en d [<-|Hin] Hdir Hm; [|now apply Hc].
        apply obtener_fecha_Some in Hm. congruence.
      * exists []. rewrite app_nil_r. repeat split; [constructor|]. discriminate.
    + destruct (IH carpetas) as (nuevas & Hn & Hf & Hc).
      exists nuevas. split; [exact Hn|]. split; [now apply Hmono|].
      intros He en d [<-|Hin] Hdir Hm; [congruence|now apply Hc].
    + exists []. rewrite app_nil_r. repeat split; [constructor|]. discriminate.
Qed.


Lemma agregar_dirs_entradas (root : str) (dirs : list str) :
  forall carpetas,
  exists nuevas,
    fst (agregar_dirs E root dirs carpetas) = carpetas ++ nuevas
    /\ Forall
         (fun x =>
            In (nombre x) dirs /\ ruta x = os_path_join root (nombre x)
            /\ fecha_mtime (fs E) (ruta x) = Ok (fecha_modificacion x))
         nuevas.
Proof.
  induction dirs as [|d dirs IH]; intros carpetas; cbn [agregar_dirs].
  - exists []. rewrite app_nil_r. split; [reflexivity|constructor].
  - assert (Hmono : forall l,
              Forall (fun x => In (nombre x) dirs
                               /\ ruta x = os_path_join root (nombre x)
                               /\ fecha_mtime (fs E) (ruta x)
                                  = Ok (fecha_modificacion x)) l ->
              Forall (fun x => In (nombre x) (d :: dirs)
                               /\ ruta x = os_path_join root (nombre x)
                               /\ fecha_mtime (fs E) (ruta x)
                                  = Ok (fecha_modificacion x)) l).
    { intros l. apply Forall_impl. intros x (H1 & H2). split; [now right|exact H2]. }
    destruct (obtener_fecha_modificacion E (os_path_join root d))
      as [[f|]|e] eqn:Ho.
    + destruct (IH (carpetas ++ [mkcarpeta (os_path_join root d) d f]))
        as (nuevas & Hn & Hf).
      exists (mkcarpeta (os_path_join root d) d f :: nuevas).
      split; [rewrite Hn; now rewrite <- app_assoc|].
      constructor; [|now apply Hmono].
      cbn [nombre ruta fecha_modificacion]. apply obtener_fecha_Some in Ho.
      split; [now left|]. split; [reflexivity|exact Ho].
    + destruct (IH carpetas) as (nuevas & Hn & Hf).
      exists nuevas. split; [exact Hn|now apply Hmono].
    + exists []. rewrite app_nil_r. split; [reflexivity|constructor].
Qed.

Lemma recorrer_walk_entradas (it : iter (str * list str * list str)) :
  forall carpetas,
  exists nuevas,
    fst (recorrer_walk E it carpetas) = carpetas ++ nuevas
    /\ Forall (de_walk E it) nuevas.
Proof.
  induction it as [|e|[[root dirs] files] resto IH]; intros carpetas;
    cbn [recorrer_walk elementos].
  - exists []. rewrite app_nil_r. split; [reflexivity|constructor].
  - exists []. rewrite app_nil_r. split; [reflexivity|constructor].
  - destruct (agregar_dirs_entradas root dirs carpetas) as (n1 & Hn1 & Hf1).
    assert (Hf1' : Forall (de_walk E (Da (root, dirs, files) resto)) n1).
    { eapply Forall_impl; [|exact Hf1]. intros x (H1 & H2 & H3).
      exists root, dirs, files. split; [now left|auto]. }
    destruct (agregar_dirs E root dirs carpetas) as [c1 [e|]];
      cbn [fst] in Hn1; subst c1.
    + exists n1. split; [reflexivity|exact Hf1'].
    + destruct (IH (carpetas ++ n1)) as (n2 & Hn2 & Hf2).
      exists (n1 ++ n2). split; [rewrite Hn2; now rewrite <- app_assoc|].
      apply Forall_app. split; [exact Hf1'|].
      eapply Forall_impl; [|exact Hf2]. intros x (r & ds & fs' & Hin & H).
      exists r, ds, fs'. split; [now right|exact H].
Qed.


End MasBusqueda.


(* ================================================================== *)
(** * The recursive search on a tree *)

(** Induction on a tree: a property of the files that holds of a directory
    when it holds of its entries holds of every node. *)
Lemma nodo_induccion (P : nodo -> Prop) :
  (forall m, P (Archivo m)) ->
  (forall m hijos, Forall (fun nh => P (snd nh)) hijos -> P (Directorio m hijos)) ->
  forall t, P t.
Proof.
  intros HA HD. fix IH 1. intros [m|m hijos]; [apply HA|].
  apply HD. induction hijos as [|[n h] hijos IHh]; constructor;
    [apply IH|exact IHh].
Qed.

Lemma partir_desde_app (n s : str) :
  forall actual, ~ In 47 n ->
  Arbol.partir_desde actual (n ++ 47 :: s)
  = (actual ++ n) :: Arbol.partir_desde [] s.
Proof.
  induction n as [|c n IH]; intros actual H; cbn [app Arbol.partir_desde].
  - rewrite Z.eqb_refl. now rewrite app_nil_r.
  - destruct (Z.eqb_spec c 47) as [->|]; [exfalso; apply H; now left|].
    rewrite IH by (intros Hin; apply H; now right).
    now rewrite <- app_assoc.
Qed.

Lemma partir_desde_unir (comps : list str) :
  comps <> [] -> Forall (fun n => Arbol.nombre_valido n = true) comps ->
  Arbol.partir_desde [] (unir comps) = comps.
Proof.
  induction comps as [|n comps IH]; intros Hne Hv; [contradiction|].
  inversion Hv as [|? ? Hn Hv']; subst.
  apply nombre_valido_inv in Hn. destruct Hn as [_ Hsin].
  destruct comps as [|n' comps].
  - cbn [unir]. now rewrite partir_desde_nombre.
  - change (unir (n :: n' :: comps)) with (n ++ 47 :: unir (n' :: comps)).
    rewrite partir_desde_app by assumption.
    rewrite IH by (try discriminate; assumption). reflexivity.
Qed.

Lemma unir_no_vacia (comps : list str) :
  comps <> [] -> Forall (fun n => Arbol.nombre_valido n = true) comps ->
  unir comps <> [].
Proof.
  intros Hne Hv. destruct comps as [|n comps]; [contradiction|].
  inversion Hv as [|? ? Hn _]; subst.
  apply nombre_valido_inv in Hn. destruct Hn as [Hn _].
  destruct n as [|c n]; [contradiction|].
  destruct comps; cbn; discriminate.
Qed.

Lemma partir_unir (comps : list str) :
  comps <> [] -> Forall (fun n => Arbol.nombre_valido n = true) comps ->
  Arbol.partir (unir comps) = comps.
Proof.
  intros Hne Hv. unfold Arbol.partir.
  pose proof (unir_no_vacia comps Hne Hv) as Hu.
  pose proof (partir_desde_unir comps Hne Hv) as Hp.
  destruct (unir comps); [contradiction|exact Hp].
Qed.

Lemma relativa_bajo (raiz s : str) :
  s <> [] ->
  Arbol.relativa raiz (Arbol.con_barra raiz ++ s) = Some (Arbol.partir s).
Proof.
  intros Hs. unfold Arbol.relativa.
  destruct (Str.eqb (Arbol.con_barra raiz ++ s) raiz) eqn:Q.
  - apply Str_eqb_eq in Q. apply (f_equal (@List.length Z)) in Q.
    rewrite length_app in Q. pose proof (con_barra_length raiz).
    destruct s; [contradiction|]. cbn in Q. lia.
  - now rewrite quitar_prefijo_app.
Qed.

(** The path of a node below [t] is the path of [t], the separator and
    the names that lead from [t] to the node. *)
Lemma nodo_bajo_nombres (p : str) (t : nodo) (q n : str) (h : nodo) :
  nodo_bajo p t q n h -> Arbol.bien_formado t = true ->
  exists comps,
    comps <> [] /\ Forall (fun n => Arbol.nombre_valido n = true) comps
    /\ q = Arbol.con_barra p ++ unir comps
    /\ Arbol.resolver t comps = Some h.
Proof.
  induction 1 as [p m hijos n h Hin|p m hijos n h q n' h' Hin Hb IH];
    intros Hbf; pose proof Hbf as Hbf';
    apply bien_formado_inv in Hbf; destruct Hbf as [Hs Hbf];
    destruct (Hbf _ _ Hin) as [Hn Hh].
  - exists [n]. split; [discriminate|]. split; [now constructor|].
    split; [now apply os_path_join_nombre|].
    cbn [Arbol.resolver]. now rewrite (buscar_hijo_In hijos n h Hs Hin).
  - destruct (IH Hh) as (comps & Hne & Hv & -> & Hr).
    exists (n :: comps). split; [discriminate|]. split; [now constructor|].
    split.
    + rewrite (os_path_join_sin_barra_final p n Hn), (os_path_join_nombre p n Hn).
      destruct comps as [|n1 comps]; [contradiction|].
      change (unir (n :: n1 :: comps)) with (n ++ [47] ++ unir (n1 :: comps)).
      now rewrite <- !app_assoc.
    + cbn [Arbol.resolver]. now rewrite (buscar_hijo_In hijos n h Hs Hin).
Qed.

Section ArbolRecursivo.

Variable E : entorno.
Variable raiz : str.
Variable t : nodo.

Hypothesis bien : Arbol.bien_formado t = true.
Hypothesis sistema_del_arbol : fs E = Arbol.sistema_de raiz t.

(** Every path below the root leads back to its node. *)
Lemma nodo_en_bajo (q n : str) (h : nodo) :
  nodo_bajo raiz t q n h -> Arbol.nodo_en raiz t q = Some h.
Proof.
  intros Hb. destruct (nodo_bajo_nombres _ _ _ _ _ Hb bien)
    as (comps & Hne & Hv & -> & Hr).
  unfold Arbol.nodo_en.
  rewrite relativa_bajo by now apply unir_no_vacia.
  now rewrite partir_unir.
Qed.

Lemma obtener_fecha_bajo (q n : str) (h : nodo) :
  nodo_bajo raiz t q n h ->
  obtener_fecha_modificacion E q = Ok (Arbol.mtime_de h).
Proof.
  intros Hb. unfold obtener_fecha_modificacion.
  rewrite sistema_del_arbol. cbn [fecha_mtime Arbol.sistema_de].
  rewrite (nodo_en_bajo _ _ _ Hb). now destruct (Arbol.mtime_de h).
Qed.

(** On a tree no modification date raises anything but an [OSError]. *)
Lemma obtener_fecha_arbol (p : str) :
  exists o, obtener_fecha_modificacion E p = Ok o.
Proof.
  unfold obtener_fecha_modificacion.
  rewrite sistema_del_arbol. cbn [fecha_mtime Arbol.sistema_de].
  destruct (Arbol.nodo_en raiz t p) as [h|]; [|cbn [is_OSError]; eauto].
  destruct (Arbol.mtime_de h); cbn [is_OSError]; eauto.
Qed.

Lemma agregar_dirs_arbol (root : str) (dirs : list str) :
  forall carpetas,
  agregar_dirs E root dirs carpetas
  = (carpetas ++ flat_map (aporta E root) dirs, None).
Proof.
  induction dirs as [|d dirs IH]; intros carpetas; cbn [agregar_dirs flat_map].
  - now rewrite app_nil_r.
  - unfold aporta at 1.
    destruct (obtener_fecha_arbol (os_path_join root d)) as [[f|] Ho];
      rewrite Ho, IH; [now rewrite <- app_assoc|reflexivity].
Qed.

Lemma recorrer_walk_arbol (ts : list (str * list str * list str)) :
  forall carpetas,
  recorrer_walk E (Arbol.iter_de ts) carpetas
  = (carpetas
     ++ flat_map (fun tr => flat_map (aporta E (fst (fst tr))) (snd (fst tr))) ts,
     None).
Proof.
  induction ts as [|[[root dirs] files] ts IH]; intros carpetas;
    cbn [Arbol.iter_de recorrer_walk flat_map fst snd].
  - now rewrite app_nil_r.
  - rewrite agregar_dirs_arbol, IH. now rewrite <- app_assoc.
Qed.

End ArbolRecursivo.


Section WalkArbol.

Variable E : entorno.

(** The names that [os.walk] gives on a tree add to the list exactly the
    directories below the root of the walk whose date can be read,
    provided the date read at the path of a node is the date of the
    node. *)
Lemma walk_aporta (t : nodo) :
  forall p,
  (forall q n h, nodo_bajo p t q n h ->
     obtener_fecha_modificacion E q = Ok (Arbol.mtime_de h)) ->
  forall x,
    In x (flat_map (fun tr => flat_map (aporta E (fst (fst tr))) (snd (fst tr)))
            (Arbol.walk p t))
    <-> exists sub,
          nodo_bajo p t (ruta x) (nombre x)
            (Directorio (Some (fecha_modificacion x)) sub).
Proof.
  induction t as [m|m hijos IH] using nodo_induccion; intros p H x.
  - cbn [Arbol.walk flat_map]. split; [intros []|].
    intros (sub & Hb). inversion Hb.
  - cbn [Arbol.walk flat_map fst snd]. rewrite in_app_iff. split.
    + intros [Hx|Hx].
      * apply in_flat_map in Hx. destruct Hx as (n & Hn & Hx).
        unfold Arbol.nombres_si in Hn. apply in_map_iff in Hn.
        destruct Hn as ([n0 h] & Hn0 & Hnh). cbn [fst] in Hn0. subst n0.
        apply filter_In in Hnh. destruct Hnh as [Hin Hd]. cbn [snd] in Hd.
        unfold aporta in Hx.
        rewrite (H _ _ _ (nodo_bajo_hijo p m hijos n h Hin)) in Hx.
        destruct h as [mt|mt sub]; [discriminate|]. cbn [Arbol.mtime_de] in Hx.
        destruct mt as [f|]; [|contradiction].
        destruct Hx as [<-|[]]. exists sub. cbn [ruta nombre fecha_modificacion].
        now apply nodo_bajo_hijo.
      * apply in_flat_map in Hx. destruct Hx as (tr & Htr & Hx).
        apply in_flat_map in Htr. destruct Htr as ([n h] & Hin & Htr).
        cbn [fst snd] in Htr.
        rewrite Forall_forall in IH. specialize (IH _ Hin (os_path_join p n)).
        cbn [snd] in IH.
        assert (H' : forall q n' h', nodo_bajo (os_path_join p n) h q n' h' ->
                       obtener_fecha_modificacion E q = Ok (Arbol.mtime_de h'))
          by (intros q n' h' Hb; apply (H q n' h');
              eapply nodo_bajo_nieto; eassumption).
        destruct (proj1 (IH H' x)) as (sub & Hb).
        { apply in_flat_map. exists tr. split; assumption. }
        exists sub. eapply nodo_bajo_nieto; eassumption.
    + intros (sub & Hb).
      remember (ruta x) as q eqn:Hq. remember (nombre x) as nx eqn:Hnx.
      remember (Directorio (Some (fecha_modificacion x)) sub) as hx eqn:Hhx.
      remember (Directorio m hijos) as t eqn:Ht.
      destruct Hb as [p0 m0 hijos0 n h Hin|p0 m0 hijos0 n h q n' h' Hin Hb];
        injection Ht as -> ->.
      * left. apply in_flat_map. exists n. split.
        -- unfold Arbol.nombres_si. apply in_map_iff. exists (n, h).
           split; [reflexivity|]. apply filter_In. split; [assumption|].
           subst h. reflexivity.
        -- unfold aporta.
           rewrite (H _ _ _ (nodo_bajo_hijo p0 m hijos n h Hin)).
           subst h. cbn [Arbol.mtime_de]. left.
           destruct x as [rx nx' fx]. cbn [ruta nombre fecha_modificacion] in *.
           congruence.
      * right. rewrite Forall_forall in IH.
        specialize (IH _ Hin (os_path_join p0 n)). cbn [snd] in IH.
        assert (H' : forall q0 n0 h0, nodo_bajo (os_path_join p0 n) h q0 n0 h0 ->
                       obtener_fecha_modificacion E q0 = Ok (Arbol.mtime_de h0))
          by (intros q0 n0 h0 Hb0; apply (H q0 n0 h0);
              eapply nodo_bajo_nieto; eassumption).
        assert (Hx : exists sub0,
                  nodo_bajo (os_path_join p0 n) h (ruta x) (nombre x)
                    (Directorio (Some (fecha_modificacion x)) sub0))
          by (exists sub; subst; exact Hb).
        apply (proj2 (IH H' x)) in Hx.
        apply in_flat_map in Hx. destruct Hx as (tr & Htr & Hx).
        apply in_flat_map. exists tr. split; [|exact Hx].
        apply in_flat_map. exists (n, h). split; assumption.
Qed.


End WalkArbol.



(* ================================================================== *)
(** * More on filtering *)

Lemma sublista_filter_mas {A : Type} (p q : A -> bool) (l : list A) :
  (forall x, p x = true -> q x = true) ->
  sublista (filter p l) (filter q l).
Proof.
  intros H. induction l as [|x l IH]; cbn; [constructor|].
  destruct (p x) eqn:Hp.
  - rewrite (H x Hp). now constructor.
  - destruct (q x); [now constructor|assumption].
Qed.

(** Of two dates one is before the other, or they are the same, and only
    one of the three. *)
Lemma fechas_tricotomia (a b : date) :
  (Date.ltb a b = true /\ Date.ltb b a = false /\ Date.eqb b a = false)
  \/ (Date.ltb a b = false /\ Date.ltb b a = true /\ Date.eqb b a = false)
  \/ (Date.ltb a b = false /\ Date.ltb b a = false /\ Date.eqb b a = true).
Proof.
  assert (Hne : forall x y, Date.ltb x y = true -> Date.eqb y x = false).
  { intros x y L. destruct (Date.eqb y x) eqn:Q; [|reflexivity].
    apply DateFacts.eqb_eq in Q. subst y.
    now rewrite DateFacts.ltb_irrefl in L. }
  assert (Hasim : forall x y, Date.ltb x y = true -> Date.ltb y x = false).
  { intros x y L. destruct (Date.ltb y x) eqn:L'; [|reflexivity].
    pose proof (DateFacts.ltb_trans _ _ _ L L') as T.
    now rewrite DateFacts.ltb_irrefl in T. }
  destruct (DateFacts.ltb_total a b) as [L|[->|L]].
  - left. auto.
  - right; right. rewrite DateFacts.ltb_irrefl.
    split; [reflexivity|]. split; [reflexivity|]. now apply DateFacts.eqb_eq.
  - right; left. split; [now apply Hasim|]. split; [assumption|].
    destruct (Date.eqb b a) eqn:Q; [|reflexivity].
    apply DateFacts.eqb_eq in Q. subst b. now rewrite DateFacts.ltb_irrefl in L.
Qed.

Lemma filtros_particion (ref : date) (l : list carpeta) :
  Permutation
    (filter (fun x => Date.ltb ref (fecha_modificacion x)) l
     ++ filter (fun x => Date.ltb (fecha_modificacion x) ref) l
     ++ filter (fun x => Date.eqb (fecha_modificacion x) ref) l)
    l.
Proof.
  induction l as [|x l IH]; [reflexivity|]. cbn [filter].
  destruct (fechas_tricotomia ref (fecha_modificacion x))
    as [(-> & -> & ->)|[(-> & -> & ->)|(-> & -> & ->)]].
  - cbn [app]. now constructor.
  - cbn [app]. apply Permutation_sym, Permutation_cons_app, Permutation_sym.
    exact IH.
  - rewrite app_assoc.
    apply Permutation_sym, Permutation_cons_app, Permutation_sym.
    rewrite <- app_assoc. exact IH.
Qed.

Section MasFiltros.

Variable E : entorno.





End MasFiltros.






(* ================================================================== *)
(** * More on saving and on the session *)

Lemma bind_Ok {A B : Type} (m : M A) (k : A -> M B) (c c' : consola) (b : B) :
  bind m k c = (Ok b, c') ->
  exists a c1, m c = (Ok a, c1) /\ k a c1 = (Ok b, c').
Proof.
  unfold bind. destruct (m c) as [[a|e] c1]; [eauto|discriminate].
Qed.

Lemma solo_lanza_ret {A : Type} (P : exn -> Prop) (a : A) :
  solo_lanza P (ret a).
Proof. intros c e c'. discriminate. Qed.

Lemma solo_lanza_emit (P : exn -> Prop) (ev : evento) : solo_lanza P (emit ev).
Proof. intros c e c'. discriminate. Qed.

Lemma solo_lanza_print (P : exn -> Prop) (s : str) : solo_lanza P (print s).
Proof. apply solo_lanza_emit. Qed.

Lemma solo_lanza_input (prompt : str) : solo_lanza fin_de_sesion (input prompt).
Proof.
  intros c e c'. unfold input. destruct (entrada c); intros [= <- _]; now left.
Qed.

Lemma solo_lanza_reintentar {A : Type} (prompt : str)
    (probar : str -> A + list evento) :
  solo_lanza fin_de_sesion (reintentar prompt probar).
Proof.
  intros c e c' H. unfold reintentar in H.
  apply reintentar_desde_resultado in H.
  destruct H as [[H _]|(? & ? & ? & _ & _ & _ & H)]; [|discriminate].
  injection H as ->. now left.
Qed.

Lemma solo_lanza_bind {A B : Type} (P : exn -> Prop) (m : M A)
    (k : A -> M B) :
  solo_lanza P m -> (forall a, solo_lanza P (k a)) -> solo_lanza P (bind m k).
Proof.
  intros Hm Hk c e c' H. unfold bind in H.
  destruct (m c) as [[a|e1] c1] eqn:Hmc.
  - exact (Hk a _ _ _ H).
  - injection H as <- <-. exact (Hm _ _ _ Hmc).
Qed.

Lemma solo_lanza_print_todas (P : exn -> Prop) (ls : list str) :
  solo_lanza P (print_todas ls).
Proof.
  intros c e c' H. rewrite print_todas_salida in H. discriminate.
Qed.

Section MasSesion.

Variable E : entorno.

Create HintDb sesion.

#[local] Hint Resolve solo_lanza_ret solo_lanza_emit solo_lanza_print
  solo_lanza_input solo_lanza_reintentar solo_lanza_print_todas : sesion.

Ltac lanza :=
  repeat first
    [ apply solo_lanza_bind; [|intros ?]
    | solve [auto with sesion]
    | match goal with
      | |- solo_lanza _ (if ?b then _ else _) => destruct b eqn:?
      | |- solo_lanza _ (match ?x with _ => _ end) => destruct x eqn:?
      end ].

Lemma solo_lanza_buscar (self : FiltrarCarpetas) (b : bool) :
  solo_lanza fin_de_sesion (buscar_carpetas E self b).
Proof.
  unfold buscar_carpetas. lanza.
  all: intros ? ? ? [= <- _]; right; right; assumption.
Qed.

Lemma solo_lanza_filtrar (carpetas : list carpeta) (opcion : Z) :
  solo_lanza fin_de_sesion (filtrar_por_opcion E carpetas opcion).
Proof.
  unfold filtrar_por_opcion, solicitar_fecha, solicitar_dias. lanza.
  intros ? ? ? [= <- _]. right; left.
  eapply sub_days_raise; eassumption.
Qed.

Lemma solo_lanza_mostrar (self : FiltrarCarpetas) (l : list carpeta) :
  solo_lanza fin_de_sesion (mostrar_resultados self l).
Proof. unfold mostrar_resultados. lanza. Qed.

Lemma solo_lanza_guardar (self : FiltrarCarpetas) :
  solo_lanza fin_de_sesion (guardar_resultados E self).
Proof.
  unfold guardar_resultados. lanza.
  intros ? ? ? [= <- _]. right; right; assumption.
Qed.

Lemma solo_lanza_menu : solo_lanza fin_de_sesion (mostrar_menu_opciones E).
Proof. unfold mostrar_menu_opciones. lanza. Qed.

Lemma solo_lanza_preguntar :
  solo_lanza fin_de_sesion preguntar_incluir_subcarpetas.
Proof. unfold preguntar_incluir_subcarpetas. lanza. Qed.

Lemma solo_lanza_solicitar_ruta (self : FiltrarCarpetas) :
  solo_lanza fin_de_sesion (solicitar_ruta E self).
Proof. unfold solicitar_ruta. lanza. Qed.

#[local] Hint Resolve solo_lanza_buscar solo_lanza_filtrar solo_lanza_mostrar
  solo_lanza_guardar solo_lanza_menu solo_lanza_preguntar
  solo_lanza_solicitar_ruta : sesion.

Lemma solo_lanza_vuelta (self : FiltrarCarpetas) :
  solo_lanza fin_de_sesion (vuelta E self).
Proof. unfold vuelta, limpiar_pantalla, mostrar_titulo. lanza. Qed.

Lemma solo_lanza_bucle (n : nat) :
  forall self, solo_lanza fin_de_sesion (ejecutar_bucle E n self).
Proof.
  induction n as [|n IH]; intros self; cbn [ejecutar_bucle].
  - intros c e c' [= <- _]. now left.
  - apply solo_lanza_bind; [apply solo_lanza_vuelta|].
    intros [s b]. cbn [fst snd]. destruct b; [apply IH|apply solo_lanza_ret].
Qed.

(** The path that a round leaves in the object is a directory, and a
    round says not to go on only after its last question. *)
Lemma solicitar_ruta_directorio (self s : FiltrarCarpetas) (c c' : consola) :
  solicitar_ruta E self c = (Ok s, c') ->
  es_directorio E (ruta_busqueda s) = true.
Proof.
  unfold solicitar_ruta. intros H.
  apply bind_Ok in H. destruct H as (r & c1 & Hr & H).
  unfold reintentar in Hr. apply reintentar_desde_resultado in Hr.
  destruct Hr as [[Hr _]|(malas & buena & a & _ & _ & Hb & Ha)];
    [discriminate|].
  injection Ha as <-.
  unfold bind, print, emit, ret in H. injection H as <- _.
  cbn [ruta_busqueda]. unfold probar_ruta in Hb.
  destruct (es_directorio E _) eqn:Hd; [|discriminate].
  injection Hb as <-. exact Hd.
Qed.

Lemma mostrar_resultados_ruta (self s : FiltrarCarpetas) (l : list carpeta)
    (c c' : consola) :
  mostrar_resultados self l c = (Ok s, c') ->
  ruta_busqueda s = ruta_busqueda self.
Proof.
  unfold mostrar_resultados. intros H.
  do 5 (apply bind_Ok in H; destruct H as (? & ? & _ & H)).
  destruct (es_vacia l).
  - apply bind_Ok in H. destruct H as (? & ? & _ & H). now injection H as <- _.
  - do 3 (apply bind_Ok in H; destruct H as (? & ? & _ & H)).
    now injection H as <- _.
Qed.

Lemma vuelta_resultado (self s : FiltrarCarpetas) (b : bool)
    (c c' : consola) :
  vuelta E self c = (Ok (s, b), c') ->
  es_directorio E (ruta_busqueda s) = true
  /\ (b = false ->
      exists sal,
        salida c' = sal ++ [Pregunta (py "¿Desea realizar otra búsqueda? (s/n): ")]).
Proof.
  unfold vuelta. intros H.
  apply bind_Ok in H. destruct H as (? & ? & _ & H).
  apply bind_Ok in H. destruct H as (? & ? & _ & H).
  apply bind_Ok in H. destruct H as (s1 & c1 & Hs1 & H).
  apply solicitar_ruta_directorio in Hs1.
  apply bind_Ok in H. destruct H as (incluir & ? & _ & H).
  apply bind_Ok in H. destruct H as (? & ? & _ & H).
  apply bind_Ok in H. destruct H as (? & ? & _ & H).
  apply bind_Ok in H. destruct H as (carpetas & ? & _ & H).
  destruct (es_vacia carpetas).
  - apply bind_Ok in H. destruct H as (? & ? & _ & H).
    apply bind_Ok in H. destruct H as (? & ? & _ & H).
    injection H as <- <- _. split; [exact Hs1|discriminate].
  - apply bind_Ok in H. destruct H as (? & ? & _ & H).
    apply bind_Ok in H. destruct H as (opcion & ? & _ & H).
    apply bind_Ok in H. destruct H as (filtradas & ? & _ & H).
    apply bind_Ok in H. destruct H as (s2 & ? & Hs2 & H).
    apply mostrar_resultados_ruta in Hs2.
    apply bind_Ok in H. destruct H as (? & ? & _ & H).
    apply bind_Ok in H. destruct H as (? & c5 & _ & H).
    apply bind_Ok in H. destruct H as (linea & c6 & Hin & H).
    injection H as <- _ <-. split; [now rewrite Hs2|]. intros _.
    unfold input in Hin. destruct (entrada c5); [discriminate|].
    injection Hin as _ <-. cbn [salida]. eauto.
Qed.

Lemma ejecutar_bucle_resultado (n : nat) :
  forall (self s : FiltrarCarpetas) (c c' : consola),
  ejecutar_bucle E n self c = (Ok s, c') ->
  es_directorio E (ruta_busqueda s) = true
  /\ exists sal,
       salida c' = sal ++ [Pregunta (py "¿Desea realizar otra búsqueda? (s/n): ")].
Proof.
  induction n as [|n IH]; intros self s c c' H; cbn [ejecutar_bucle] in H;
    [discriminate|].
  apply bind_Ok in H. destruct H as ([s1 b] & c1 & Hv & H). cbn [fst snd] in H.
  destruct b; [exact (IH _ _ _ _ H)|].
  injection H as <- <-. destruct (vuelta_resultado _ _ _ _ _ Hv) as [Hd Hs].
  split; [exact Hd|now apply Hs].
Qed.

(** What [ejecutar] does, by cases, for the two theorems below. *)
Lemma ejecutar_casos (self : FiltrarCarpetas) (c : consola) :
  match ejecutar E self c with
  | (Ok s, c') =>
      es_directorio E (ruta_busqueda s) = true
      /\ exists sal,
           salida c'
           = sal ++ [Pregunta (py "¿Desea realizar otra búsqueda? (s/n): ");
                     Imprime (10 :: py "¡Gracias por usar el filtro de carpetas!")]
  | (Raise e, c') => fin_de_sesion e
  end.
Proof.
  unfold ejecutar, bind.
  destruct (ejecutar_bucle E (S (List.length (entrada c))) self c)
    as [[s|e] c1] eqn:Hb.
  - destruct (ejecutar_bucle_resultado _ _ _ _ _ Hb) as [Hd [sal Hs]].
    unfold print, emit, ret. cbn [entrada salida]. split; [exact Hd|].
    exists sal. rewrite Hs. now rewrite <- app_assoc.
  - exact (solo_lanza_bucle _ _ _ _ _ Hb).
Qed.




End MasSesion.
